(** * PageRank (pagerank.py): a shallow embedding and its properties

    The embedding follows [src/pagerank.py] function by function:
    [transition_model], [sample_pagerank] and [iterate_pagerank].

    Modelling choices.
    - A Python [dict] is an association list in insertion order
      ([dict_set] overwrites in place or appends, as Python does), because
      [iterate_pagerank] depends on the order in which pages are visited.
    - A Python [set] of page names is a list of names; its iteration order
      is the order of the list, so every statement quantified over lists
      covers every iteration order a set may have.
    - Python's [float] is modelled by exact rationals [Q]; [round(x, 4)]
      is rounding to four decimals, ties to even.  Statements about values
      therefore use [==] (equality of rationals).  Where a statement
      depends on the rounding of the arithmetic itself, the function is
      embedded over IEEE binary64 as well (module [F64]).
    - Exceptions are values of [exn]; a computation returns [result].
    - The [random] module is a tape of raw integers that is read in order;
      [random.choices] follows CPython's [Lib/random.py] (3.9 and later),
      which raises [ValueError] when the total weight is not positive.
    - [while True] takes fuel; [None] means the fuel ran out. *)

From Stdlib Require Import List String Ascii Bool Arith ZArith QArith Qround Qabs.
From Stdlib Require Import Lia Lqa Permutation DecimalString DecimalNat Sorted.
From Stdlib Require Import SpecFloat.
Import ListNotations.

Local Open Scope string_scope.
Local Open Scope list_scope.
Local Open Scope Q_scope.

(** ** Exceptions and the error monad *)

Inductive exn : Type :=
| KeyError
| IndexError
| ValueError
| ZeroDivisionError
| UnboundLocalError.

Inductive result (A : Type) : Type :=
| Ok (a : A)
| Raise (e : exn).

Arguments Ok {A} a.
Arguments Raise {A} e.

Definition bind {A B : Type} (m : result A) (k : A -> result B) : result B :=
  match m with
  | Ok a => k a
  | Raise e => Raise e
  end.

Notation "x <- m ;; k" := (bind m (fun x => k))
  (at level 61, m at next level, right associativity).
Notation "' pat <- m ;; k" := (bind m (fun x => match x with pat => k end))
  (at level 61, pat pattern, m at next level, right associativity).

(** A [for] loop whose body may raise: the accumulator is threaded from
    left to right and the first exception ends the loop. *)
Fixpoint for_each {A S : Type} (body : S -> A -> result S) (xs : list A) (s : S)
  : result S :=
  match xs with
  | [] => Ok s
  | x :: xs' => s' <- body s x ;; for_each body xs' s'
  end.

(** ** Python dictionaries, in insertion order *)

Definition dict (V : Type) : Type := list (string * V).

Definition keys {V : Type} (d : dict V) : list string := map fst d.
Definition values {V : Type} (d : dict V) : list V := map snd d.

Fixpoint dict_get {V : Type} (d : dict V) (k : string) : option V :=
  match d with
  | [] => None
  | (k', v) :: d' => if String.eqb k k' then Some v else dict_get d' k
  end.

(** [d[k]] *)
Definition getitem {V : Type} (d : dict V) (k : string) : result V :=
  match dict_get d k with
  | Some v => Ok v
  | None => Raise KeyError
  end.

(** [d[k] = v] *)
Fixpoint dict_set {V : Type} (d : dict V) (k : string) (v : V) : dict V :=
  match d with
  | [] => [(k, v)]
  | (k', v') :: d' =>
      if String.eqb k k' then (k', v) :: d' else (k', v') :: dict_set d' k v
  end.

(** [k in d] *)
Definition dict_mem {V : Type} (d : dict V) (k : string) : bool :=
  match dict_get d k with
  | Some _ => true
  | None => false
  end.

(** [k in s] for a set [s] of page names *)
Definition set_mem (k : string) (s : list string) : bool :=
  existsb (String.eqb k) s.

(** ** Numbers *)

(** [len(x)] used as a number *)
Definition len {A : Type} (l : list A) : Q := inject_Z (Z.of_nat (List.length l)).

(** [x / y]; Python raises [ZeroDivisionError] when [y] is zero. *)
Definition py_div (x y : Q) : result Q :=
  if Qeq_bool y 0 then Raise ZeroDivisionError else Ok (x / y).

Definition Qlt_bool (x y : Q) : bool := negb (Qle_bool y x).

(** Nearest integer, ties to the even one. *)
Definition round_half_even (q : Q) : Z :=
  let f := Qfloor q in
  match Qcompare (q - inject_Z f) (1 # 2) with
  | Lt => f
  | Gt => (f + 1)%Z
  | Eq => if Z.even f then f else (f + 1)%Z
  end.

(** [round(x, 4)] *)
Definition round4 (x : Q) : Q := round_half_even (x * 10000) # 10000.

(** ** The corpus *)

Definition corpus_t : Type := dict (list string).

(** ** transition_model (lines 52-83) *)

Definition transition_model (corpus : corpus_t) (page : string) (damping_factor : Q)
  : result (dict Q) :=
  links <- getitem corpus page ;;
  if Nat.eqb (List.length links) 0 then
    a <- py_div damping_factor (len corpus) ;;
    b <- py_div (1 - damping_factor) (len corpus) ;;
    let equal_probablity := a + b in
    Ok (fold_left (fun pd pages => dict_set pd pages equal_probablity)
                  (keys corpus) [])
  else
    l <- py_div damping_factor (len links) ;;
    let link_probablity := round4 l in
    e <- py_div (1 - damping_factor) (len corpus) ;;
    let equal_probablity := round4 e in
    let prob_distribution :=
      fold_left (fun pd links => dict_set pd links (equal_probablity + link_probablity))
                links [] in
    Ok (fold_left (fun pd pages =>
                     if dict_mem pd pages then pd
                     else dict_set pd pages equal_probablity)
                  (keys corpus) prob_distribution).

(** ** transition_model over binary64

    Python's [float] is an IEEE binary64 number.  Its operations are those
    of [SpecFloat] at precision 53, rounding to nearest, ties to even. *)

Module F64.

Definition prec : Z := 53.
Definition emax : Z := 1024.

Definition float : Type := spec_float.

Definition zero : float := S754_zero false.

Definition add : float -> float -> float := SFadd prec emax.
Definition sub : float -> float -> float := SFsub prec emax.
Definition div : float -> float -> float := SFdiv prec emax.

(** [x < y] and [x == y] *)
Definition ltb : float -> float -> bool := SFltb.
Definition eqb : float -> float -> bool := SFeqb.

(** An [int] used as a [float]: the nearest float. *)
Definition of_Z (z : Z) : float := binary_normalize prec emax z 0 false.

Definition of_nat (n : nat) : float := of_Z (Z.of_nat n).

(** The [1] of [1 - damping_factor]. *)
Definition one : float := of_Z 1.

(** The number a float stands for; 0 for the infinities and NaN. *)
Definition to_Q (x : float) : Q :=
  match x with
  | S754_finite s m e => inject_Z (cond_Zopp s (Zpos m)) * Qpower 2 e
  | _ => 0
  end.

(** The float nearest to a rational, ties to even: what reading a
    decimal literal such as [0.85] gives. *)
Definition of_Q (q : Q) : float :=
  let nearest (s : bool) (p : positive) :=
    let '(m, e, l) := SFdiv_core_binary prec emax (Zpos p) 0 (Zpos (Qden q)) 0 in
    binary_round_aux prec emax s m e l in
  match Qnum q with
  | Z0 => S754_zero false
  | Zpos p => nearest false p
  | Zneg p => nearest true p
  end.

(** [round(x, 4)] on a float, as CPython computes it: the number that [x]
    stands for is rounded to four decimals, ties to even, and the decimal
    found is read back as a float; zeros, infinities and NaN are
    returned as they are. *)
Definition round4 (x : float) : float :=
  match x with
  | S754_finite s _ _ =>
      let k := round_half_even (to_Q x * 10000) in
      if (k =? 0)%Z then S754_zero s else of_Q (k # 10000)
  | _ => x
  end.

(** [x / n] for a float [x] and an [int] [n]. *)
Definition py_div (x : float) (n : nat) : result float :=
  if Nat.eqb n 0 then Raise ZeroDivisionError else Ok (div x (of_nat n)).

(** Lines 52-83. *)
Definition transition_model (corpus : corpus_t) (page : string)
  (damping_factor : float) : result (dict float) :=
  links <- getitem corpus page ;;
  if Nat.eqb (List.length links) 0 then
    a <- py_div damping_factor (List.length corpus) ;;
    b <- py_div (sub one damping_factor) (List.length corpus) ;;
    let equal_probablity := add a b in
    Ok (fold_left (fun pd pages => dict_set pd pages equal_probablity)
                  (keys corpus) [])
  else
    l <- py_div damping_factor (List.length links) ;;
    let link_probablity := round4 l in
    e <- py_div (sub one damping_factor) (List.length corpus) ;;
    let equal_probablity := round4 e in
    let prob_distribution :=
      fold_left (fun pd links => dict_set pd links (add equal_probablity link_probablity))
                links [] in
    Ok (fold_left (fun pd pages =>
                     if dict_mem pd pages then pd
                     else dict_set pd pages equal_probablity)
                  (keys corpus) prob_distribution).

End F64.

(** ** The [random] module

    The generator is a tape of raw integers and a read position; every
    draw reads one cell.  Quantifying over tapes covers every outcome the
    generator can produce. *)

Record rng : Type := mkRng { tape : nat -> Z; pos : nat }.

Definition next_raw (g : rng) : Z * rng :=
  (tape g (pos g), mkRng (tape g) (S (pos g))).

(** [random.random()]: a 53-bit integer divided by [2^53], in [[0, 1)]. *)
Definition random (g : rng) : Q * rng :=
  let (r, g') := next_raw g in
  ((r mod 9007199254740992)%Z # 9007199254740992, g').

(** [_randbelow(n)]: an integer in [[0, n)]. *)
Definition randbelow (n : nat) (g : rng) : nat * rng :=
  let (r, g') := next_raw g in
  (Z.to_nat (r mod Z.of_nat n), g').

(** [seq[i]] *)
Definition list_item {A : Type} (seq : list A) (i : nat) : result A :=
  match nth_error seq i with
  | Some a => Ok a
  | None => Raise IndexError
  end.

(** [random.choice(seq)] *)
Definition random_choice (seq : list string) (g : rng) : result (string * rng) :=
  match seq with
  | [] => Raise IndexError
  | _ :: _ =>
      let (i, g') := randbelow (List.length seq) g in
      x <- list_item seq i ;;
      Ok (x, g')
  end.

(** [itertools.accumulate(weights)]: the running sums. *)
Fixpoint accumulate_from (acc : Q) (ws : list Q) : list Q :=
  match ws with
  | [] => []
  | w :: ws' => (acc + w) :: accumulate_from (acc + w) ws'
  end.

Definition accumulate (ws : list Q) : list Q :=
  match ws with
  | [] => []
  | w :: ws' => w :: accumulate_from w ws'
  end.

(** [bisect.bisect_right(a, x, lo, hi)]: the loop
    [while lo < hi: mid = (lo + hi) // 2; if x < a[mid]: hi = mid else: lo = mid + 1]
    runs at most [hi - lo] times, so [hi - lo] rounds of fuel are enough
    (lemma [bisect_loop_fuel]). *)
Fixpoint bisect_loop (fuel : nat) (a : list Q) (x : Q) (lo hi : nat) : nat :=
  match fuel with
  | O => lo
  | S fuel' =>
      if (lo <? hi)%nat then
        let mid := ((lo + hi) / 2)%nat in
        if Qlt_bool x (nth mid a 0) then bisect_loop fuel' a x lo mid
        else bisect_loop fuel' a x (S mid) hi
      else lo
  end.

Definition bisect (a : list Q) (x : Q) (lo hi : nat) : nat :=
  bisect_loop (hi - lo) a x lo hi.

(** [random.choices(population, weights=weights)[0]], as in CPython's
    [Lib/random.py]: the number of weights must match, their total must be
    positive, and the element is found by bisection in the running sums. *)
Definition random_choices (population : list string) (weights : list Q) (g : rng)
  : result (string * rng) :=
  let n := List.length population in
  let cum_weights := accumulate weights in
  if negb (List.length cum_weights =? n)%nat then Raise ValueError
  else
    total <- list_item cum_weights (List.length cum_weights - 1) ;;
    if Qle_bool total 0 then Raise ValueError
    else
      let hi := (n - 1)%nat in
      let (r, g') := random g in
      x <- list_item population (bisect cum_weights (r * total) 0 hi) ;;
      Ok (x, g').

(** ** sample_pagerank (lines 86-122) *)

(** The loop of lines 103-109; [samples] grows at its end. *)
Fixpoint sample_loop (n : nat) (corpus : corpus_t) (damping_factor : Q)
  (current_page : string) (samples : list string) (g : rng)
  : result (list string * rng) :=
  match n with
  | O => Ok (samples, g)
  | S n' =>
      transitions <- transition_model corpus current_page damping_factor ;;
      '(next_page, g') <-
        random_choices (keys transitions) (values transitions) g ;;
      sample_loop n' corpus damping_factor next_page (samples ++ [next_page]) g'
  end.

(** Lines 112-116: every page starts at 0, every sample adds 1. *)
Definition count_samples (corpus : corpus_t) (samples : list string)
  : result (dict Z) :=
  let samples_dict :=
    fold_left (fun sd pages => dict_set sd pages 0%Z) (keys corpus) [] in
  for_each (fun sd values =>
              c <- getitem sd values ;;
              Ok (dict_set sd values (c + 1)%Z))
           samples samples_dict.

(** Lines 119-120: every count is divided by [n]; the assignment keeps
    the keys and their order. *)
Definition normalize (samples_dict : dict Z) (n : nat) : result (dict Q) :=
  for_each (fun sd kv =>
              q <- py_div (inject_Z (snd kv)) (inject_Z (Z.of_nat n)) ;;
              Ok (sd ++ [(fst kv, q)]))
           samples_dict [].

Definition sample_pagerank (corpus : corpus_t) (damping_factor : Q) (n : nat)
  (g : rng) : result (dict Q) :=
  '(current_page, g1) <- random_choice (keys corpus) g ;;
  '(samples, _) <- sample_loop n corpus damping_factor current_page [] g1 ;;
  samples_dict <- count_samples corpus samples ;;
  normalize samples_dict n.

(** ** iterate_pagerank (lines 125-174) *)

(** Lines 141-144: every page gets the rank [1/N] and an empty list of
    backlinks. *)
Definition init_ranks (corpus : corpus_t) : result (dict Q * dict (list string)) :=
  let size_of_corpus := len corpus in
  for_each (fun tables pages =>
              r <- py_div 1 size_of_corpus ;;
              Ok (dict_set (fst tables) pages r, dict_set (snd tables) pages []))
           (keys corpus) ([], []).

(** Lines 148-150 for one [page]: every page whose link set contains
    [page] is appended to its list. *)
Definition add_backlinks (corpus : corpus_t) (cross_link_corpus : dict (list string))
  (page : string) : result (dict (list string)) :=
  for_each (fun cross keys =>
              ls <- getitem corpus keys ;;
              if set_mem page ls then
                bl <- getitem cross page ;;
                Ok (dict_set cross page (bl ++ [keys]))
              else Ok cross)
           (keys corpus) cross_link_corpus.

(** Lines 141-150: the initial ranks and the backlink table. *)
Definition init_tables (corpus : corpus_t) : result (dict Q * dict (list string)) :=
  '(iterative_probablity, cross_link_corpus) <- init_ranks corpus ;;
  cross_link_corpus' <-
    for_each (add_backlinks corpus) (keys cross_link_corpus) cross_link_corpus ;;
  Ok (iterative_probablity, cross_link_corpus').

(** The local variables that live across the passes.  [old_rank] and
    [page_rank] are unbound until a page is updated. *)
Record iter_state : Type := mkIter {
  iterative_probablity : dict Q;
  old_rank : option Q;
  page_rank : option Q
}.

(** Lines 159-162: the sum computed for a page that nothing links to. *)
Definition linkless_sum (corpus : corpus_t) (ip : dict Q) : result Q :=
  for_each (fun ranged_sum pages =>
              ls <- getitem corpus pages ;;
              if negb (List.length ls =? 0)%nat then
                r <- getitem ip pages ;;
                q <- py_div r (len ls) ;;
                Ok (ranged_sum + q)
              else Ok ranged_sum)
           (keys ip) 0.

(** Lines 164-166: the sum over the backlinks of a page. *)
Definition ranged_sum_of (corpus : corpus_t) (ip : dict Q) (bl : list string)
  : result Q :=
  for_each (fun ranged_sum links =>
              ls <- getitem corpus links ;;
              r <- getitem ip links ;;
              q <- py_div r (len ls) ;;
              Ok (ranged_sum + q))
           bl 0.

(** Lines 155-169: the body of the [for] loop for one page.  For a page
    without backlinks the sum of lines 159-162 is computed and dropped by
    [continue]: nothing is assigned. *)
Definition update_page (corpus : corpus_t) (cross : dict (list string))
  (damping_factor : Q) (st : iter_state) (pages : string) : result iter_state :=
  bl <- getitem cross pages ;;
  if (List.length bl =? 0)%nat then
    _ <- linkless_sum corpus (iterative_probablity st) ;;
    Ok st
  else
    ranged_sum <- ranged_sum_of corpus (iterative_probablity st) bl ;;
    e <- py_div (1 - damping_factor) (len corpus) ;;
    let new_rank := e + damping_factor * ranged_sum in
    old <- getitem (iterative_probablity st) pages ;;
    Ok (mkIter (dict_set (iterative_probablity st) pages new_rank)
               (Some old) (Some new_rank)).

(** Lines 154-169: one full pass over the pages, in dictionary order. *)
Definition one_pass (corpus : corpus_t) (cross : dict (list string))
  (damping_factor : Q) (st : iter_state) : result iter_state :=
  for_each (update_page corpus cross damping_factor)
           (keys (iterative_probablity st)) st.

(** Line 171: [abs(old_rank - page_rank) < 0.0001]. *)
Definition converged (st : iter_state) : result bool :=
  match old_rank st, page_rank st with
  | Some o, Some p => Ok (Qlt_bool (Qabs (o - p)) (1 # 10000))
  | _, _ => Raise UnboundLocalError
  end.

(** Lines 153-172: [while True]. *)
Fixpoint iterate_loop (fuel : nat) (corpus : corpus_t) (cross : dict (list string))
  (damping_factor : Q) (st : iter_state) : option (result (dict Q)) :=
  match fuel with
  | O => None
  | S fuel' =>
      match one_pass corpus cross damping_factor st with
      | Raise e => Some (Raise e)
      | Ok st' =>
          match converged st' with
          | Raise e => Some (Raise e)
          | Ok true => Some (Ok (iterative_probablity st'))
          | Ok false => iterate_loop fuel' corpus cross damping_factor st'
          end
      end
  end.

Definition iterate_pagerank (fuel : nat) (corpus : corpus_t) (damping_factor : Q)
  : option (result (dict Q)) :=
  match init_tables corpus with
  | Raise e => Some (Raise e)
  | Ok (ip, cross) =>
      iterate_loop fuel corpus cross damping_factor (mkIter ip None None)
  end.

(** ** crawl (lines 25-49) *)

(** A directory that [os.listdir] can list: the names it returns and, for
    each name, the text that [open(...).read()] returns, or [None] when
    opening or reading the file raises. *)
Record directory_t : Type := mkDir {
  listdir : list string;
  read_file : string -> option string
}.

(** The file system: the directory at a path, or [None] when
    [os.listdir] raises at that path (no such directory, not a directory,
    no permission). *)
Definition file_system : Type := string -> option directory_t.

(** [s.endswith(suffix)] *)
Definition endswith (s suffix : string) : bool :=
  (String.length suffix <=? String.length s)%nat
  && String.eqb (substring (String.length s - String.length suffix)
                           (String.length suffix) s)
                suffix.

(** [set(l)]: every element once. *)
Definition py_set (l : list string) : list string := nodup string_dec l.

(** [s - {x}] *)
Definition set_remove (s : list string) (x : string) : list string :=
  filter (fun y => negb (String.eqb y x)) s.

(** A [for] loop whose body may leave by an exception ([None]). *)
Fixpoint for_each_opt {A S : Type} (body : S -> A -> option S) (xs : list A) (s : S)
  : option S :=
  match xs with
  | [] => Some s
  | x :: xs' =>
      match body s x with
      | Some s' => for_each_opt body xs' s'
      | None => None
      end
  end.

(** The loop of lines 34-40 over the names that [os.listdir] returned.
    [find_links contents] stands for [re.findall] with the pattern of
    line 39 on [contents]: the captured [href] targets, in the order of
    their occurrence. *)
Definition crawl_extract (find_links : string -> list string) (dir : directory_t)
  : option corpus_t :=
  for_each_opt (fun pages filename =>
                  if negb (endswith filename ".html") then Some pages
                  else
                    match read_file dir filename with
                    | None => None
                    | Some contents =>
                        let links := find_links contents in
                        Some (dict_set pages filename
                                       (set_remove (py_set links) filename))
                    end)
               (listdir dir) [].

(** Lines 43-47: only links to pages of the corpus are kept.  The lookup
    [pages[filename]] raises when the key is missing. *)
Definition crawl_prune (pages : corpus_t) : option corpus_t :=
  for_each_opt (fun pages filename =>
                  match dict_get pages filename with
                  | None => None
                  | Some links =>
                      Some (dict_set pages filename
                                     (py_set (filter (dict_mem pages) links)))
                  end)
               (keys pages) pages.

(** [crawl(directory)]: [None] stands for an exception, of [os.listdir]
    at line 34 or of [open] and [read] at lines 37-38. *)
Definition crawl (find_links : string -> list string) (fs : file_system)
  (directory : string) : option corpus_t :=
  match fs directory with
  | None => None
  | Some dir =>
      match crawl_extract find_links dir with
      | None => None
      | Some pages => crawl_prune pages
      end
  end.

(** ** main (lines 6-22) *)

Definition DAMPING : Q := 85 # 100.

Definition SAMPLES : nat := Z.to_nat 10000.

(** The decimal digits of a natural number. *)
Definition decimal (n : N) : string := NilZero.string_of_uint (N.to_uint n).

(** [f"{x:.4f}"]: the sign, the integer part, a point and four decimals,
    rounded to the nearest, ties to even. *)
Definition format_4f (x : Q) : string :=
  let z := Z.to_N (Z.abs (round_half_even (x * 10000))) in
  let frac := decimal (z mod 10000) in
  ((if Qlt_bool x 0 then "-" else "")
   ++ decimal (z / 10000) ++ "."
   ++ string_of_list_ascii (repeat "0"%char (4 - String.length frac)) ++ frac)%string.

(** [sorted(l)] on strings: a stable sort by code points. *)
Fixpoint insert_sorted (x : string) (l : list string) : list string :=
  match l with
  | [] => [x]
  | y :: l' => if String.leb x y then x :: l else y :: insert_sorted x l'
  end.

Definition sorted (l : list string) : list string := fold_right insert_sorted [] l.

(** [f"  {page}: {ranks[page]:.4f}"] *)
Definition report_line (page : string) (rank : Q) : string :=
  ("  " ++ page ++ ": " ++ format_4f rank)%string.

(** Lines 17-18 and 21-22: one line per page, in sorted order. *)
Definition report (ranks : dict Q) : result (list string) :=
  for_each (fun out page =>
              rank <- getitem ranks page ;;
              Ok (out ++ [report_line page rank]))
           (sorted (keys ranks)) [].

(** How a run of [main] ends. *)
Inductive outcome : Type :=
| Returned
| SystemExit (message : string)
| Uncaught (e : exn)
| CrawlFailed
| StillRunning.

(** [main]: the lines printed and how the run ends.  [argv] is
    [sys.argv]; [CrawlFailed] stands for an exception of [crawl]
    ([os.listdir], [open] or [read]); [StillRunning] for a loop that has
    not stopped when the fuel is used up. *)
Definition main (find_links : string -> list string) (argv : list string)
  (fs : file_system) (g : rng) (fuel : nat)
  : list string * outcome :=
  match argv with
  | [_; directory] =>
      match crawl find_links fs directory with
      | None => ([], CrawlFailed)
      | Some corpus =>
          match sample_pagerank corpus DAMPING SAMPLES g with
          | Raise e => ([], Uncaught e)
          | Ok ranks =>
              let header :=
                ("PageRank Results from Sampling (n = "
                 ++ decimal (N.of_nat SAMPLES) ++ ")")%string in
              match report ranks with
              | Raise e => ([header], Uncaught e)
              | Ok lines =>
                  let out := header :: lines in
                  match iterate_pagerank fuel corpus DAMPING with
                  | None => (out, StillRunning)
                  | Some (Raise e) => (out, Uncaught e)
                  | Some (Ok ranks) =>
                      let header := "PageRank Results from Iteration" in
                      match report ranks with
                      | Raise e => (out ++ [header], Uncaught e)
                      | Ok lines => (out ++ header :: lines, Returned)
                      end
                  end
              end
          end
      end
  | _ => ([], SystemExit "Usage: python pagerank.py corpus")
  end.

(** ** Example inputs *)

(** The example of the specification: A has no link, B links to A. *)
Definition ex_AB : corpus_t := [("A.html", []); ("B.html", ["A.html"])].

(** One page, no link. *)
Definition ex_single : corpus_t := [("A.html", [])].

(** A links to B and C, which link nowhere. *)
Definition ex_star : corpus_t :=
  [("A.html", ["B.html"; "C.html"]); ("B.html", []); ("C.html", [])].

(** A and B link to each other; C, the last page, links to A and has no
    backlink. *)
Definition ex_tail : corpus_t :=
  [("A.html", ["B.html"]); ("B.html", ["A.html"]); ("C.html", ["A.html"])].

(** A and B link to each other. *)
Definition ex_cycle : corpus_t := [("A.html", ["B.html"]); ("B.html", ["A.html"])].

(** [DAMPING = 0.85] *)
Definition d85 : Q := 85 # 100.

(** The float that the literal [0.85] denotes. *)
Definition d85_f : F64.float := F64.of_Q (85 # 100).

(** The float that the literal [0.5] denotes. *)
Definition d50_f : F64.float := F64.of_Q (1 # 2).

(** Five pages without links. *)
Definition ex_five : corpus_t :=
  [("A.html", []); ("B.html", []); ("C.html", []); ("D.html", []); ("E.html", [])].

(** A generator whose every raw draw is 0. *)
Definition zero_tape : rng := mkRng (fun _ => 0%Z) 0.

(** ** Vocabulary of the statements *)

(** The sum of a list of numbers. *)
Fixpoint Qsum (l : list Q) : Q :=
  match l with
  | [] => 0
  | x :: l' => x + Qsum l'
  end.

(** What the data model says of a corpus: a dictionary has each key once,
    a set has each element once, and every link points into the corpus. *)
Definition corpus_wf (corpus : corpus_t) : Prop :=
  NoDup (keys corpus) /\
  Forall (fun kv => NoDup (snd kv) /\ incl (snd kv) (keys corpus)) corpus.

(** The entry of the backlink table for [page], in closed form. *)
Definition backlinks_of (corpus : corpus_t) (page : string) : list string :=
  filter (fun k => match dict_get corpus k with
                   | Some ls => set_mem page ls
                   | None => false
                   end)
         (keys corpus).

(** The update rule in the words of the specification: a page without
    outbound links counts as linking to every page of the corpus, itself
    included. *)
Definition spec_outlinks (corpus : corpus_t) (q : string) : list string :=
  match dict_get corpus q with
  | Some [] => keys corpus
  | Some ls => ls
  | None => []
  end.

(** [(1 - d)/N + d * sum over the pages q that link to p of
    rank[q] / |outlinks(q)|], again in the words of the specification. *)
Definition spec_update (corpus : corpus_t) (d : Q) (rank : dict Q) (p : string) : Q :=
  (1 - d) / len corpus
  + d * Qsum (map (fun q => match dict_get rank q with
                            | Some r => r / len (spec_outlinks corpus q)
                            | None => 0
                            end)
                  (filter (fun q => set_mem p (spec_outlinks corpus q))
                          (keys corpus))).

(** What every pass keeps: the rank table has the pages of the corpus as
    keys, and a page that nothing links to still has its initial rank. *)
Definition pass_invariant (corpus : corpus_t) (st : iter_state) : Prop :=
  (forall k, In k (keys (iterative_probablity st)) <-> In k (keys corpus)) /\
  (forall p, In p (keys corpus) -> backlinks_of corpus p = [] ->
             dict_get (iterative_probablity st) p = Some (1 / len corpus)).

(** No page with links has both rounded probabilities of lines 72 and 75
    equal to zero: the weights handed to [random.choices] are not all 0. *)
Definition weights_positive (corpus : corpus_t) (d : Q) : bool :=
  forallb (fun kv =>
             match snd kv with
             | [] => true
             | _ :: _ =>
                 Qlt_bool 0 (round4 ((1 - d) / len corpus)
                             + round4 (d / len (snd kv)))
             end)
          corpus.

(** The share of [p] among [n] samples. *)
Definition frequency (samples : list string) (n : nat) (p : string) : Q :=
  inject_Z (Z.of_nat (count_occ string_dec samples p)) / inject_Z (Z.of_nat n).

(** Seven pages; only the first has a link. *)
Definition ex_seven : corpus_t :=
  [("A.html", ["B.html"]); ("B.html", []); ("C.html", []); ("D.html", []);
   ("E.html", []); ("F.html", []); ("G.html", [])].

(** The decimal name of the [i]-th page. *)
Definition page_name (i : nat) : string :=
  NilEmpty.string_of_uint (Nat.to_uint i).

(** A hub: page "0" links to the pages "1" ... "m", which link nowhere. *)
Definition hub_corpus (m : nat) : corpus_t :=
  (page_name 0, map page_name (seq 1 m))
  :: map (fun i => (page_name i, [])) (seq 1 m).

(** The names of the directory that end in [.html], in listing order. *)
Definition html_files (dir : directory_t) : list string :=
  filter (fun f => endswith f ".html") (listdir dir).

(** The text of a file, empty when it cannot be read. *)
Definition contents_of (dir : directory_t) (f : string) : string :=
  match read_file dir f with
  | Some c => c
  | None => ""
  end.

(** The links that [crawl] keeps for the file [f]: the captured targets,
    each once, without [f] itself and without the names that are no page
    of the directory. *)
Definition crawl_links (find_links : string -> list string) (dir : directory_t)
  (f : string) : list string :=
  py_set (filter (fun l => set_mem l (html_files dir))
                 (set_remove (py_set (find_links (contents_of dir f))) f)).

(** Two pages without anchors. *)
Definition ex_dir_unlinked : directory_t :=
  mkDir ["b.html"; "a.html"] (fun _ => Some "no anchor here").

(** A file system with one directory, at the path [corpus0]. *)
Definition fs_with (dir : directory_t) : file_system :=
  fun path => if String.eqb path "corpus0" then Some dir else None.

(** The link set of a page, empty when the page is missing. *)
Definition outlinks (corpus : corpus_t) (q : string) : list string :=
  match dict_get corpus q with
  | Some links => links
  | None => []
  end.

(** The rank of a page in a table, 0 when the page is missing. *)
Definition rank_of (ranks : dict Q) (page : string) : Q :=
  match dict_get ranks page with
  | Some v => v
  | None => 0
  end.

(** An anchor [<a href=...>text</a>] with its target in double quotes. *)
Definition anchor (target text : string) : string :=
  let quote := String (Ascii.ascii_of_nat 34) EmptyString in
  ("<a href=" ++ quote ++ target ++ quote ++ ">" ++ text ++ "</a>")%string.

(** Three files: two pages and a style sheet.  [1.html] links to
    [2.html], to itself and to a page that is not there; [2.html] links
    twice to [1.html]. *)
Definition ex_dir : directory_t :=
  mkDir ["1.html"; "style.css"; "2.html"]
        (fun f =>
           if String.eqb f "1.html" then
             Some (anchor "2.html" "two" ++ anchor "1.html" "one"
                   ++ anchor "3.html" "three")%string
           else if String.eqb f "2.html" then
             Some (anchor "1.html" "one" ++ anchor "1.html" "again")%string
           else if String.eqb f "style.css" then Some "a { color: red }"
           else None).

(** What the pattern of line 39 captures in the files of [ex_dir]. *)
Definition ex_find_links (contents : string) : list string :=
  if String.eqb contents
       (anchor "2.html" "two" ++ anchor "1.html" "one" ++ anchor "3.html" "three")%string
  then ["2.html"; "1.html"; "3.html"]
  else if String.eqb contents
            (anchor "1.html" "one" ++ anchor "1.html" "again")%string
  then ["1.html"; "1.html"]
  else [].

(** * Properties *)

(** ** The error monad *)

Lemma bind_Ok {A B : Type} (m : result A) (k : A -> result B) (b : B) :
  bind m k = Ok b -> exists a, m = Ok a /\ k a = Ok b.
Proof. destruct m as [a|e]; simpl; intros H; [eauto | discriminate]. Qed.

Lemma for_each_app {A S : Type} (body : S -> A -> result S) (xs ys : list A) (s : S) :
  for_each body (xs ++ ys) s = (s' <- for_each body xs s ;; for_each body ys s').
Proof.
  revert s; induction xs as [|x xs IH]; intros s; simpl; [reflexivity|].
  destruct (body s x); simpl; auto.
Qed.

(** A loop whose body never raises and keeps an invariant ends normally
    in a state that satisfies the invariant. *)
Lemma for_each_invariant {A S : Type} (body : S -> A -> result S) (I : S -> Prop)
  (xs : list A) :
  (forall s x, In x xs -> I s -> exists s', body s x = Ok s' /\ I s') ->
  forall s, I s -> exists s', for_each body xs s = Ok s' /\ I s'.
Proof.
  induction xs as [|x xs IH]; intros Hbody s Hs; simpl.
  - eauto.
  - destruct (Hbody s x (or_introl eq_refl) Hs) as (s1 & -> & H1); simpl.
    apply IH; auto. intros s0 y Hy; apply Hbody; right; exact Hy.
Qed.

(** ** Dictionaries *)

Section DictFacts.
Context {V : Type}.
Implicit Types (d : dict V) (k : string) (v : V).

Lemma dict_get_None d k : dict_get d k = None <-> ~ In k (keys d).
Proof.
  induction d as [|[k' v'] d IH]; simpl.
  - tauto.
  - destruct (String.eqb_spec k k') as [->|Hne].
    + split; [discriminate | intros H; exfalso; apply H; auto].
    + rewrite IH. split; [intros H [E|I]; [congruence | auto] | tauto].
Qed.

Lemma dict_get_In d k : In k (keys d) <-> exists v, dict_get d k = Some v.
Proof.
  destruct (dict_get d k) as [v|] eqn:E.
  - split; [eauto|]. intros _.
    destruct (in_dec string_dec k (keys d)) as [I|N]; [exact I|].
    apply dict_get_None in N; congruence.
  - apply dict_get_None in E. split; [tauto | intros [v Hv]; discriminate].
Qed.

Lemma dict_get_Some_In d k v : dict_get d k = Some v -> In (k, v) d.
Proof.
  induction d as [|[k' v'] d IH]; simpl; [discriminate|].
  destruct (String.eqb_spec k k') as [->|Hne]; intros H.
  - injection H as ->; auto.
  - auto.
Qed.

Lemma dict_mem_In d k : dict_mem d k = true <-> In k (keys d).
Proof.
  unfold dict_mem. rewrite dict_get_In.
  destruct (dict_get d k); split; eauto; try discriminate.
  intros [v Hv]; discriminate.
Qed.

Lemma dict_mem_false d k : dict_mem d k = false <-> ~ In k (keys d).
Proof.
  rewrite <- dict_mem_In. destruct (dict_mem d k); split; congruence.
Qed.

Lemma getitem_Ok d k v : getitem d k = Ok v <-> dict_get d k = Some v.
Proof.
  unfold getitem. destruct (dict_get d k); split; congruence.
Qed.

Lemma getitem_In d k : In k (keys d) -> exists v, getitem d k = Ok v.
Proof.
  intros H; apply dict_get_In in H as [v Hv]. exists v. now apply getitem_Ok.
Qed.

Lemma dict_get_set_same d k v : dict_get (dict_set d k v) k = Some v.
Proof.
  induction d as [|[k' v'] d IH]; simpl.
  - now rewrite String.eqb_refl.
  - destruct (String.eqb_spec k k') as [->|Hne]; simpl.
    + now rewrite String.eqb_refl.
    + destruct (String.eqb_spec k k'); [contradiction | exact IH].
Qed.

Lemma dict_get_set_other d k k' v :
  k <> k' -> dict_get (dict_set d k v) k' = dict_get d k'.
Proof.
  intros Hne. induction d as [|[k0 v0] d IH]; simpl.
  - destruct (String.eqb_spec k' k); [congruence | reflexivity].
  - destruct (String.eqb_spec k k0) as [->|Hk]; simpl.
    + destruct (String.eqb_spec k' k0); [congruence | reflexivity].
    + destruct (String.eqb_spec k' k0); [reflexivity | exact IH].
Qed.

(** Assigning to a key that is present keeps the keys and their order. *)
Lemma keys_dict_set_present d k v : In k (keys d) -> keys (dict_set d k v) = keys d.
Proof.
  induction d as [|[k' v'] d IH]; simpl; [tauto|].
  intros H. destruct (String.eqb_spec k k') as [->|Hne]; simpl; [reflexivity|].
  f_equal. apply IH. destruct H; congruence.
Qed.

(** Assigning to a new key appends the entry. *)
Lemma dict_set_fresh d k v : ~ In k (keys d) -> dict_set d k v = d ++ [(k, v)].
Proof.
  induction d as [|[k' v'] d IH]; simpl; [reflexivity|].
  intros H. destruct (String.eqb_spec k k') as [->|Hne].
  - exfalso; apply H; auto.
  - f_equal. apply IH. tauto.
Qed.

Lemma length_dict_set_present d k v :
  In k (keys d) -> List.length (dict_set d k v) = List.length d.
Proof.
  intros H. rewrite <- (length_map fst (dict_set d k v)), <- (length_map fst d).
  fold (keys (dict_set d k v)); fold (keys d). now rewrite keys_dict_set_present.
Qed.

(** Assigning the value that is there changes nothing. *)
Lemma dict_set_same d k v : dict_get d k = Some v -> dict_set d k v = d.
Proof.
  induction d as [|[k' v'] d IH]; simpl; [discriminate|].
  destruct (String.eqb_spec k k') as [->|Hne]; intros H.
  - now injection H as ->.
  - now rewrite IH.
Qed.

(** The second of two assignments to a key wins. *)
Lemma dict_set_twice d k v v' : dict_set (dict_set d k v) k v' = dict_set d k v'.
Proof.
  induction d as [|[k0 v0] d IH]; simpl.
  - now rewrite String.eqb_refl.
  - destruct (String.eqb_spec k k0) as [->|Hne]; simpl.
    + now rewrite String.eqb_refl.
    + destruct (String.eqb_spec k k0); [contradiction | now rewrite IH].
Qed.

(** Assignments keep the keys of a dictionary distinct. *)
Lemma NoDup_keys_dict_set d k v : NoDup (keys d) -> NoDup (keys (dict_set d k v)).
Proof.
  intros Hnd. destruct (in_dec string_dec k (keys d)) as [I|N].
  - now rewrite keys_dict_set_present.
  - rewrite dict_set_fresh by assumption. unfold keys. rewrite map_app. simpl.
    apply NoDup_app; [exact Hnd | constructor; [intros [] | constructor] |].
    intros a Ha [<-|[]]. contradiction.
Qed.

Lemma NoDup_keys_fold_dict_set (ks : list string) (f : string -> V) d :
  NoDup (keys d) -> NoDup (keys (fold_left (fun pd k => dict_set pd k (f k)) ks d)).
Proof.
  revert d; induction ks as [|k ks IH]; intros d Hnd; simpl; [exact Hnd|].
  apply IH. now apply NoDup_keys_dict_set.
Qed.

(** Building a dictionary from distinct new keys. *)
Lemma fold_dict_set_fresh (ks : list string) (f : string -> V) d :
  NoDup ks -> (forall k, In k ks -> ~ In k (keys d)) ->
  fold_left (fun pd k => dict_set pd k (f k)) ks d = d ++ map (fun k => (k, f k)) ks.
Proof.
  revert d; induction ks as [|k ks IH]; intros d Hnd Hfresh; simpl.
  - now rewrite app_nil_r.
  - inversion Hnd as [|? ? Hk Hnd']; subst.
    rewrite dict_set_fresh by (apply Hfresh; left; reflexivity).
    rewrite IH; [now rewrite <- app_assoc | exact Hnd' |].
    intros k' Hk' Hin. unfold keys in Hin. rewrite map_app in Hin.
    apply in_app_or in Hin as [Hin|[<-|[]]]; [|contradiction].
    exact (Hfresh k' (or_intror Hk') Hin).
Qed.

(** The same loop read through [dict_get]; keys may repeat. *)
Lemma dict_get_fold_set (ks : list string) (f : string -> V) d q :
  dict_get (fold_left (fun pd k => dict_set pd k (f k)) ks d) q
  = if existsb (String.eqb q) ks then Some (f q) else dict_get d q.
Proof.
  revert d; induction ks as [|k ks IH]; intros d; simpl; [reflexivity|].
  rewrite IH. destruct (existsb (String.eqb q) ks) eqn:E.
  - now rewrite orb_true_r.
  - rewrite orb_false_r. destruct (String.eqb_spec q k) as [->|Hne].
    + apply dict_get_set_same.
    + apply dict_get_set_other. congruence.
Qed.

Lemma keys_map_const (ks : list string) (f : string -> V) :
  keys (map (fun k => (k, f k)) ks) = ks.
Proof.
  unfold keys. rewrite map_map. simpl. apply map_id.
Qed.

Lemma values_map_const (ks : list string) (f : string -> V) :
  values (map (fun k => (k, f k)) ks) = map f ks.
Proof.
  unfold values. rewrite map_map. reflexivity.
Qed.

Lemma keys_app d1 d2 : keys (d1 ++ d2) = keys d1 ++ keys d2.
Proof. apply map_app. Qed.

Lemma values_app d1 d2 : values (d1 ++ d2) = values d1 ++ values d2.
Proof. apply map_app. Qed.

Lemma dict_get_map (ks : list string) (f : string -> V) k :
  dict_get (map (fun k => (k, f k)) ks) k = if in_dec string_dec k ks then Some (f k) else None.
Proof.
  induction ks as [|k0 ks IH]; simpl; [reflexivity|].
  destruct (String.eqb_spec k k0) as [->|Hne].
  - destruct (string_dec k0 k0); [reflexivity | congruence].
  - destruct (string_dec k0 k); [congruence|].
    rewrite IH. destruct (in_dec string_dec k ks); reflexivity.
Qed.
(** The loop of lines 79-81, read through [dict_get]. *)
Lemma dict_get_fold_fill (ks : list string) (v : V) (pd : dict V) (q : string) :
  dict_get (fold_left (fun pd k => if dict_mem pd k then pd else dict_set pd k v) ks pd) q
  = match dict_get pd q with
    | Some x => Some x
    | None => if set_mem q ks then Some v else None
    end.
Proof.
  revert pd; induction ks as [|k ks IH]; intros pd; simpl.
  - destruct (dict_get pd q); reflexivity.
  - rewrite IH. unfold dict_mem. destruct (dict_get pd k) as [x|] eqn:Ek.
    + destruct (dict_get pd q) eqn:Eq; [reflexivity|].
      destruct (String.eqb_spec q k) as [->|Hne]; [congruence | reflexivity].
    + destruct (String.eqb_spec q k) as [->|Hne].
      * rewrite dict_get_set_same, Ek. reflexivity.
      * rewrite dict_get_set_other by congruence.
        destruct (dict_get pd q); reflexivity.
Qed.

(** The loop of lines 79-81 on distinct keys appends the missing ones. *)
Lemma fold_fill_missing (ks : list string) (v : V) (pd : dict V) :
  NoDup ks ->
  fold_left (fun pd k => if dict_mem pd k then pd else dict_set pd k v) ks pd
  = pd ++ map (fun k => (k, v)) (filter (fun k => negb (dict_mem pd k)) ks).
Proof.
  revert pd; induction ks as [|k ks IH]; intros pd Hnd; simpl.
  - now rewrite app_nil_r.
  - inversion Hnd as [|? ? Hk Hnd']; subst.
    destruct (dict_mem pd k) eqn:E; simpl; [now apply IH|].
    rewrite IH by assumption.
    rewrite dict_set_fresh by (now apply dict_mem_false).
    rewrite <- app_assoc. simpl. do 3 f_equal.
    apply filter_ext_in. intros x Hx. f_equal.
    unfold dict_mem.
    rewrite <- (dict_set_fresh pd k v) by (now apply dict_mem_false).
    rewrite dict_get_set_other; [reflexivity|]. intros ->. contradiction.
Qed.

End DictFacts.

Lemma set_mem_In k s : set_mem k s = true <-> In k s.
Proof.
  unfold set_mem. rewrite existsb_exists. split.
  - intros (x & Hx & E). apply String.eqb_eq in E. now subst.
  - intros H. exists k. split; [exact H | apply String.eqb_refl].
Qed.

Lemma set_mem_false k s : set_mem k s = false <-> ~ In k s.
Proof.
  rewrite <- set_mem_In. destruct (set_mem k s); split; congruence.
Qed.

(** ** Numbers *)

Lemma Qlt_bool_iff (x y : Q) : Qlt_bool x y = true <-> x < y.
Proof.
  unfold Qlt_bool. rewrite negb_true_iff.
  destruct (Qle_bool y x) eqn:E.
  - apply Qle_bool_iff in E. split; [discriminate | intros H; lra].
  - split; [intros _ | reflexivity].
    destruct (Qlt_le_dec x y) as [H|H]; [exact H|].
    apply Qle_bool_iff in H. congruence.
Qed.

Lemma len_nonneg {A : Type} (l : list A) : 0 <= len l.
Proof.
  unfold len. change 0 with (inject_Z 0). rewrite <- Zle_Qle. lia.
Qed.

Lemma len_cons {A : Type} (a : A) (l : list A) : len (a :: l) == len l + 1.
Proof.
  unfold len. simpl List.length. rewrite Nat2Z.inj_succ, <- Z.add_1_r, inject_Z_plus.
  reflexivity.
Qed.

Lemma len_app {A : Type} (l1 l2 : list A) : len (l1 ++ l2) == len l1 + len l2.
Proof.
  unfold len. rewrite length_app, Nat2Z.inj_add, inject_Z_plus. reflexivity.
Qed.

Lemma len_pos {A : Type} (l : list A) : l <> [] -> 0 < len l.
Proof.
  destruct l as [|a l]; [congruence|]. intros _.
  rewrite len_cons. pose proof (len_nonneg l). lra.
Qed.

Lemma len_eq_length {A B : Type} (l1 : list A) (l2 : list B) :
  List.length l1 = List.length l2 -> len l1 = len l2.
Proof. unfold len. now intros ->. Qed.

Lemma py_div_Ok (x y : Q) : ~ y == 0 -> py_div x y = Ok (x / y).
Proof.
  intros H. unfold py_div. destruct (Qeq_bool y 0) eqn:E; [|reflexivity].
  apply Qeq_bool_iff in E. contradiction.
Qed.

Lemma py_div_len {A : Type} (x : Q) (l : list A) :
  l <> [] -> py_div x (len l) = Ok (x / len l).
Proof.
  intros H. apply py_div_Ok. pose proof (len_pos l H). lra.
Qed.


Lemma round_half_even_nonneg (q : Q) : 0 <= q -> (0 <= round_half_even q)%Z.
Proof.
  intros H. unfold round_half_even.
  assert (Hf : (0 <= Qfloor q)%Z).
  { change 0%Z with (Qfloor 0). now apply Qfloor_resp_le. }
  destruct (Qcompare _ _); [destruct (Z.even _)| |]; lia.
Qed.

(** A number above one half rounds to at least one. *)
Lemma round_half_even_pos (q : Q) : 1 # 2 < q -> (1 <= round_half_even q)%Z.
Proof.
  intros H. unfold round_half_even.
  assert (Hf : (0 <= Qfloor q)%Z).
  { change 0%Z with (Qfloor 0). apply Qfloor_resp_le. lra. }
  destruct (Z.eq_dec (Qfloor q) 0) as [E0|N0].
  - rewrite E0. change (inject_Z 0) with 0.
    assert (Hgt : Qcompare (q - 0) (1 # 2) = Gt) by (apply Qgt_alt; lra).
    rewrite Hgt. lia.
  - destruct (Qcompare _ _); [destruct (Z.even _)| |]; lia.
Qed.



Lemma round4_nonneg (x : Q) : 0 <= x -> 0 <= round4 x.
Proof.
  intros H. assert (Hx : 0 <= x * 10000) by lra.
  apply round_half_even_nonneg in Hx. unfold round4, Qle; simpl. lia.
Qed.

(** Above half a unit of the fourth decimal, [round(x, 4)] is positive. *)
Lemma round4_pos (x : Q) : 1 # 20000 < x -> 0 < round4 x.
Proof.
  intros H. unfold round4, Qlt; simpl.
  assert (Hq : 1 # 2 < x * 10000) by lra.
  pose proof (round_half_even_pos _ Hq). lia.
Qed.



(** ** transition_model *)

Lemma dict_get_nonempty {V : Type} (d : dict V) (k : string) (v : V) :
  dict_get d k = Some v -> d <> [].
Proof. destruct d; [discriminate | congruence]. Qed.

Section TransitionFacts.
Variables (corpus : corpus_t) (page : string) (d : Q).

(** The two probabilities of lines 72 and 75. *)
Let base : Q := round4 ((1 - d) / len corpus).
Let link (links : list string) : Q := round4 (d / len links).

(** A page without links: lines 64-68. *)
Lemma transition_linkless :
  NoDup (keys corpus) -> dict_get corpus page = Some [] ->
  transition_model corpus page d
  = Ok (map (fun k => (k, d / len corpus + (1 - d) / len corpus)) (keys corpus)).
Proof.
  intros Hnd Hget. unfold transition_model.
  apply getitem_Ok in Hget as Hg. rewrite Hg. simpl.
  pose proof (dict_get_nonempty _ _ _ Hget) as Hne.
  rewrite !py_div_len by assumption. simpl.
  rewrite (fold_dict_set_fresh _ (fun _ => d / len corpus + (1 - d) / len corpus));
    [reflexivity | assumption | intros k _ []].
Qed.

(** A page with links: lines 72-83. *)
Lemma transition_linked (links : list string) :
  NoDup (keys corpus) -> NoDup links ->
  dict_get corpus page = Some links -> links <> [] ->
  transition_model corpus page d
  = Ok (map (fun l => (l, base + link links)) links
        ++ map (fun k => (k, base))
               (filter (fun k => negb (set_mem k links)) (keys corpus))).
Proof.
  intros Hnd Hndl Hget Hl. unfold transition_model.
  apply getitem_Ok in Hget as Hg. rewrite Hg. simpl.
  pose proof (dict_get_nonempty _ _ _ Hget) as Hne.
  destruct links as [|l0 ls]; [congruence|]. cbn [List.length Nat.eqb].
  rewrite !py_div_len by (assumption || congruence). cbn [bind].
  rewrite (fold_dict_set_fresh _ (fun _ => round4 ((1 - d) / len corpus)
                                            + round4 (d / len (l0 :: ls))));
    [| assumption | intros k _ []]. cbn [app].
  rewrite fold_fill_missing by assumption.
  fold base. fold (link (l0 :: ls)). do 3 f_equal.
  apply filter_ext. intros k. f_equal.
  pose proof (dict_get_map (l0 :: ls) (fun _ => base + link (l0 :: ls)) k) as Hm.
  unfold dict_mem. cbv beta in Hm. rewrite Hm.
  destruct (in_dec string_dec k (l0 :: ls)) as [I|N].
  - symmetry. now apply set_mem_In.
  - symmetry. now apply set_mem_false.
Qed.

(** Through [dict_get], no assumption on duplicates is needed. *)
Lemma transition_linked_get (links : list string) :
  dict_get corpus page = Some links -> links <> [] ->
  exists dist, transition_model corpus page d = Ok dist /\
    forall q, dict_get dist q
              = if set_mem q links then Some (base + link links)
                else if set_mem q (keys corpus) then Some base else None.
Proof.
  intros Hget Hl. unfold transition_model.
  apply getitem_Ok in Hget as Hg. rewrite Hg. simpl.
  pose proof (dict_get_nonempty _ _ _ Hget) as Hne.
  destruct links as [|l0 ls]; [congruence|]. cbn [List.length Nat.eqb].
  rewrite !py_div_len by (assumption || congruence). cbn [bind].
  eexists; split; [reflexivity|]. intros q.
  rewrite dict_get_fold_fill.
  rewrite (dict_get_fold_set _ (fun _ => base + link (l0 :: ls))).
  fold (set_mem q (l0 :: ls)).
  fold base. fold (link (l0 :: ls)).
  destruct (set_mem q (l0 :: ls)); reflexivity.
Qed.
End TransitionFacts.

(** ** transition_model over binary64 *)

(** Known values: the literal 0.85, [1 - 0.85] (0.15000000000000002, not
    the float 0.15), and [0.1 + 0.2] (0.30000000000000004, not the float
    0.3). *)
Example F64_known_values :
  d85_f = S754_finite false 7656119366529843 (-53) /\
  F64.sub F64.one d85_f = S754_finite false 5404319552844596 (-55) /\
  F64.of_Q (15 # 100) = S754_finite false 5404319552844595 (-55) /\
  F64.add (F64.of_Q (1 # 10)) (F64.of_Q (2 # 10))
  = S754_finite false 5404319552844596 (-54) /\
  F64.of_Q (3 # 10) = S754_finite false 5404319552844595 (-54) /\
  F64.of_Q (85 # 100) = F64.div (F64.of_Z 85) (F64.of_Z 100).
Proof. repeat split; vm_compute; reflexivity. Qed.

(** The closed forms of [transition_model] over binary64. *)
Lemma F64_py_div_length {A : Type} (x : F64.float) (l : list A) :
  l <> [] -> F64.py_div x (List.length l) = Ok (F64.div x (F64.of_nat (List.length l))).
Proof. intros Hl. destruct l; [congruence | reflexivity]. Qed.

Section TransitionFacts64.
Variables (corpus : corpus_t) (page : string) (d : F64.float).

(** The two probabilities of lines 72 and 75. *)
Let base : F64.float :=
  F64.round4 (F64.div (F64.sub F64.one d) (F64.of_nat (List.length corpus))).
Let link (links : list string) : F64.float :=
  F64.round4 (F64.div d (F64.of_nat (List.length links))).

(** A page without links: lines 64-68. *)
Lemma F64_transition_linkless :
  NoDup (keys corpus) -> dict_get corpus page = Some [] ->
  F64.transition_model corpus page d
  = Ok (map (fun k => (k, F64.add (F64.div d (F64.of_nat (List.length corpus)))
                                  (F64.div (F64.sub F64.one d)
                                           (F64.of_nat (List.length corpus)))))
            (keys corpus)).
Proof.
  intros Hnd Hget. unfold F64.transition_model.
  apply getitem_Ok in Hget as Hg. rewrite Hg. simpl.
  pose proof (dict_get_nonempty _ _ _ Hget) as Hne.
  rewrite !F64_py_div_length by assumption. simpl.
  rewrite (fold_dict_set_fresh _
             (fun _ => F64.add (F64.div d (F64.of_nat (List.length corpus)))
                               (F64.div (F64.sub F64.one d)
                                        (F64.of_nat (List.length corpus)))));
    [reflexivity | assumption | intros k _ []].
Qed.

(** A page with links: lines 72-83, read through [dict_get]. *)
Lemma F64_transition_linked_get (links : list string) :
  dict_get corpus page = Some links -> links <> [] ->
  exists dist, F64.transition_model corpus page d = Ok dist /\
    forall q, dict_get dist q
              = if set_mem q links then Some (F64.add base (link links))
                else if set_mem q (keys corpus) then Some base else None.
Proof.
  intros Hget Hl. unfold F64.transition_model.
  apply getitem_Ok in Hget as Hg. rewrite Hg. simpl.
  pose proof (dict_get_nonempty _ _ _ Hget) as Hne.
  destruct links as [|l0 ls]; [congruence|].
  change (Nat.eqb (List.length (l0 :: ls)) 0) with false. cbv iota.
  rewrite (F64_py_div_length d (l0 :: ls)) by congruence.
  rewrite (F64_py_div_length _ corpus) by assumption. cbn [bind].
  eexists; split; [reflexivity|]. intros q.
  rewrite dict_get_fold_fill.
  rewrite (dict_get_fold_set _ (fun _ => F64.add base (link (l0 :: ls)))).
  fold (set_mem q (l0 :: ls)).
  fold base. fold (link (l0 :: ls)).
  destruct (set_mem q (l0 :: ls)); reflexivity.
Qed.
End TransitionFacts64.

Lemma corpus_wf_links (corpus : corpus_t) (page : string) (links : list string) :
  corpus_wf corpus -> dict_get corpus page = Some links ->
  NoDup links /\ incl links (keys corpus).
Proof.
  intros [_ Hall] Hget. apply dict_get_Some_In in Hget.
  rewrite Forall_forall in Hall. exact (Hall _ Hget).
Qed.

(** The keys of a distribution for a page with links are the corpus pages. *)
Lemma linked_keys_permutation (ks links : list string) :
  NoDup ks -> NoDup links -> incl links ks ->
  Permutation (links ++ filter (fun k => negb (set_mem k links)) ks) ks.
Proof.
  intros Hnd Hndl Hincl. apply NoDup_Permutation; [|assumption|].
  - apply NoDup_app; [assumption | now apply NoDup_filter |].
    intros a Ha Hf. apply filter_In in Hf as [_ Hf].
    apply negb_true_iff, set_mem_false in Hf. contradiction.
  - intros x. rewrite in_app_iff, filter_In, negb_true_iff, set_mem_false.
    split.
    + intros [H|[H _]]; auto.
    + intros H. destruct (in_dec string_dec x links); auto.
Qed.



Ltac nodup_strings :=
  repeat (constructor; [simpl; intuition discriminate|]); constructor.

Ltac wf_corpus :=
  split; [nodup_strings
         | repeat (constructor;
                   [split; [nodup_strings | intros x Hx; simpl in *; intuition]|]);
           constructor].

Lemma ex_seven_wf : corpus_wf ex_seven.
Proof. wf_corpus. Qed.



(** C6 (amended): for a page with at least one outbound link and a
    damping factor in (0,1), [transition_model] gives every corpus page
    the base probability [(1 - d)/N] rounded to four decimals, and every
    page of [corpus[page]] the sum of that and of [d/|corpus[page]|]
    rounded to four decimals; a page that is not linked from [page] gets
    exactly the rounded base probability.  The quotients, the rounding
    and the sum are those of binary64. *)
Theorem C6_transition_rounded_probabilities
  (corpus : corpus_t) (page : string) (d : F64.float) (links : list string) :
  dict_get corpus page = Some links -> links <> [] ->
  F64.ltb F64.zero d = true -> F64.ltb d F64.one = true ->
  exists dist,
    F64.transition_model corpus page d = Ok dist /\
    let base :=
      F64.round4 (F64.div (F64.sub F64.one d) (F64.of_nat (List.length corpus))) in
    let link := F64.round4 (F64.div d (F64.of_nat (List.length links))) in
    forall q,
      (In q links -> dict_get dist q = Some (F64.add base link)) /\
      (In q (keys corpus) -> ~ In q links -> dict_get dist q = Some base).
Proof.
  intros Hget Hl _ _.
  destruct (F64_transition_linked_get corpus page d links Hget Hl) as (dist & Hd & Hq).
  exists dist. split; [exact Hd|]. cbv zeta. intros q. rewrite Hq. split.
  - intros Hin. apply set_mem_In in Hin. now rewrite Hin.
  - intros Hk Hn. apply set_mem_false in Hn. apply set_mem_In in Hk.
    now rewrite Hn, Hk.
Qed.

(** Seven pages, damping 0.85: the linked page gets 0.0214 + 0.85 and the
    others 0.0214. *)
Lemma C6_transition_rounded_probabilities_witness :
  dict_get ex_seven "A.html" = Some ["B.html"] /\ ["B.html"] <> [] /\
  F64.ltb F64.zero d85_f = true /\ F64.ltb d85_f F64.one = true /\
  exists dist,
    F64.transition_model ex_seven "A.html" d85_f = Ok dist /\
    let base :=
      F64.round4 (F64.div (F64.sub F64.one d85_f) (F64.of_nat (List.length ex_seven))) in
    let link := F64.round4 (F64.div d85_f (F64.of_nat (List.length ["B.html"]))) in
    forall q,
      (In q ["B.html"] -> dict_get dist q = Some (F64.add base link)) /\
      (In q (keys ex_seven) -> ~ In q ["B.html"] -> dict_get dist q = Some base).
Proof.
  split; [reflexivity|]. split; [discriminate|].
  split; [reflexivity|]. split; [reflexivity|].
  apply C6_transition_rounded_probabilities;
    [reflexivity | discriminate | reflexivity | reflexivity].
Defined.

(** C6, as stated, fails: on seven pages with damping 0.85 a page that is
    not linked gets 0.0214, which is not the quotient [(1 - d)/N]
    (0.02142857142857143) but lies more than 0.00002 below it. *)
Example C6_base_probability_is_rounded :
  dict_get ex_seven "A.html" = Some ["B.html"] /\
  F64.ltb F64.zero d85_f = true /\ F64.ltb d85_f F64.one = true /\
  In "C.html" (keys ex_seven) /\ ~ In "C.html" ["B.html"] /\
  exists dist v,
    F64.transition_model ex_seven "A.html" d85_f = Ok dist /\
    dict_get dist "C.html" = Some v /\
    v = F64.of_Q (214 # 10000) /\
    F64.eqb v (F64.div (F64.sub F64.one d85_f) (F64.of_nat 7)) = false /\
    2 # 100000
    < F64.to_Q (F64.div (F64.sub F64.one d85_f) (F64.of_nat 7)) - F64.to_Q v.
Proof.
  do 3 (split; [reflexivity|]).
  split; [simpl; tauto|]. split; [intros [H|[]]; discriminate|].
  eexists. eexists. split; [reflexivity|]. split; [reflexivity|].
  split; [vm_compute; reflexivity|]. split; vm_compute; reflexivity.
Qed.

(** Where binary64 and exact arithmetic part: on a hub of 201 pages with
    damping 0.85 the quotient [0.85/200] is the float
    0.0042500000000000003, which rounds to 0.0043, and a linked page gets
    0.0007 + 0.0043; the exact quotient 0.00425 is a tie and rounds to
    0.0042. *)
Example transition_at_a_decimal_tie :
  (exists dist,
      F64.transition_model (hub_corpus 200) (page_name 0) d85_f = Ok dist /\
      dict_get dist (page_name 1)
      = Some (F64.add (F64.of_Q (7 # 10000)) (F64.of_Q (43 # 10000))) /\
      F64.add (F64.of_Q (7 # 10000)) (F64.of_Q (43 # 10000)) = F64.of_Q (5 # 1000)) /\
  (exists dist v,
      transition_model (hub_corpus 200) (page_name 0) d85 = Ok dist /\
      dict_get dist (page_name 1) = Some v /\ v == 49 # 10000).
Proof.
  split.
  - eexists. split; [vm_compute; reflexivity|]. split; vm_compute; reflexivity.
  - eexists. eexists. split; [vm_compute; reflexivity|].
    split; vm_compute; reflexivity.
Qed.

(** In exact arithmetic the value of a page without links is [1/N],
    whatever the damping factor. *)
Lemma transition_linkless_exact (corpus : corpus_t) (page : string) (d : Q) :
  NoDup (keys corpus) -> dict_get corpus page = Some [] ->
  exists dist,
    transition_model corpus page d = Ok dist /\
    keys dist = keys corpus /\
    Forall (fun v => v == 1 / len corpus) (values dist).
Proof.
  intros Hnd Hget. rewrite (transition_linkless corpus page d Hnd Hget).
  eexists. split; [reflexivity|]. split.
  - apply (keys_map_const (keys corpus)
             (fun _ => d / len corpus + (1 - d) / len corpus)).
  - unfold values. rewrite map_map. simpl. apply Forall_forall.
    intros v Hv. apply in_map_iff in Hv as (k & <- & _).
    pose proof (len_pos corpus (dict_get_nonempty corpus page [] Hget)).
    field. lra.
Qed.

(** C7 (amended): for a page without outbound links, [transition_model]
    returns one entry per corpus page, in corpus order, and every page
    gets the same probability, the binary64 value of [d/N + (1 - d)/N],
    an expression that is [1/N] in exact arithmetic; on the example
    [{A: {}, B: {A}}] with damping 0.85 and page A, both pages get 0.5. *)
Theorem C7_linkless_page_uniform :
  (forall (corpus : corpus_t) (page : string) (d : F64.float),
      NoDup (keys corpus) -> dict_get corpus page = Some [] ->
      exists v,
        F64.transition_model corpus page d
        = Ok (map (fun k => (k, v)) (keys corpus)) /\
        v = F64.add (F64.div d (F64.of_nat (List.length corpus)))
                    (F64.div (F64.sub F64.one d) (F64.of_nat (List.length corpus)))) /\
  (forall (corpus : corpus_t) (page : string) (d : Q),
      NoDup (keys corpus) -> dict_get corpus page = Some [] ->
      exists dist,
        transition_model corpus page d = Ok dist /\
        keys dist = keys corpus /\
        Forall (fun v => v == 1 / len corpus) (values dist)) /\
  F64.transition_model ex_AB "A.html" d85_f
  = Ok [("A.html", F64.of_Q (1 # 2)); ("B.html", F64.of_Q (1 # 2))].
Proof.
  split; [|split; [exact transition_linkless_exact | vm_compute; reflexivity]].
  intros corpus page d Hnd Hget. eexists. split; [|reflexivity].
  apply (F64_transition_linkless corpus page d Hnd Hget).
Qed.

(** The general half of C7 on the example. *)
Lemma C7_linkless_page_uniform_witness :
  NoDup (keys ex_AB) /\ dict_get ex_AB "A.html" = Some [] /\
  exists v,
    F64.transition_model ex_AB "A.html" d85_f = Ok (map (fun k => (k, v)) (keys ex_AB)) /\
    v = F64.add (F64.div d85_f (F64.of_nat (List.length ex_AB)))
                (F64.div (F64.sub F64.one d85_f) (F64.of_nat (List.length ex_AB))).
Proof.
  split; [nodup_strings|]. split; [reflexivity|].
  apply (proj1 C7_linkless_page_uniform); [nodup_strings | reflexivity].
Defined.

(** C7, as stated, fails: on five pages without links and damping 0.85
    every page gets 0.19999999999999998, which is neither the float 0.2
    nor the number 1/5; with damping 0.5 every page gets 0.2, so the
    value depends on the damping factor. *)
Example C7_value_is_not_one_fifth :
  dict_get ex_five "A.html" = Some [] /\
  exists v,
    F64.transition_model ex_five "A.html" d85_f
    = Ok (map (fun k => (k, v)) (keys ex_five)) /\
    F64.eqb v (F64.of_Q (1 # 5)) = false /\
    F64.eqb v (F64.div F64.one (F64.of_nat 5)) = false /\
    ~ F64.to_Q v == 1 # 5 /\
    F64.transition_model ex_five "A.html" d50_f
    = Ok (map (fun k => (k, F64.of_Q (1 # 5))) (keys ex_five)).
Proof.
  split; [reflexivity|]. eexists. split; [vm_compute; reflexivity|].
  split; [vm_compute; reflexivity|]. split; [vm_compute; reflexivity|].
  split; [intros H; vm_compute in H; discriminate | vm_compute; reflexivity].
Qed.

(** C8 (amended): [transition_model] validates nothing.  It fails exactly
    when [page] is not a key of [corpus], with the [KeyError] of the lookup
    [corpus[page]] (this covers the empty corpus); on every other input,
    whatever the damping factor, it returns a distribution. *)
Theorem C8_transition_fails_only_on_missing_page
  (corpus : corpus_t) (page : string) (d : Q) :
  match transition_model corpus page d with
  | Ok _ => dict_mem corpus page = true
  | Raise e => e = KeyError /\ dict_mem corpus page = false
  end.
Proof.
  unfold transition_model, getitem, dict_mem.
  destruct (dict_get corpus page) as [links|] eqn:Hget; simpl; [|auto].
  pose proof (dict_get_nonempty corpus page links Hget) as Hne.
  destruct links as [|l0 ls]; cbn [List.length Nat.eqb].
  - rewrite !py_div_len by assumption. reflexivity.
  - rewrite !py_div_len by (assumption || congruence). reflexivity.
Qed.

(** C8, as stated, fails: a damping factor of 1.5 is outside (0,1) and
    [transition_model] returns a distribution all the same; on the empty
    corpus the failure is the [KeyError] of the page lookup. *)
Example C8_damping_factor_not_validated :
  ~ (0 < 3 # 2 /\ 3 # 2 < 1) /\
  (exists dist, transition_model ex_single "A.html" (3 # 2) = Ok dist) /\
  transition_model [] "A.html" d85 = Raise KeyError.
Proof.
  split; [intros [_ H]; vm_compute in H; discriminate|].
  split; [eexists; reflexivity | reflexivity].
Qed.

(** ** iterate_pagerank *)

Lemma for_each_pure {A S : Type} (f : S -> A -> S) (xs : list A) (s : S) :
  for_each (fun s x => Ok (f s x)) xs s = Ok (fold_left f xs s).
Proof.
  revert s; induction xs as [|x xs IH]; intros s; simpl; [reflexivity | apply IH].
Qed.

Lemma for_each_ext {A S : Type} (f g : S -> A -> result S) (xs : list A) (s : S) :
  (forall s x, In x xs -> f s x = g s x) -> for_each f xs s = for_each g xs s.
Proof.
  revert s; induction xs as [|x xs IH]; intros s H; simpl; [reflexivity|].
  rewrite (H s x) by (left; reflexivity). destruct (g s x); simpl; [|reflexivity].
  apply IH. intros s0 y Hy. apply H. right; exact Hy.
Qed.

Lemma fold_left_pair {A B K : Type} (f : A -> K -> A) (g : B -> K -> B)
  (ks : list K) (a : A) (b : B) :
  fold_left (fun t k => (f (fst t) k, g (snd t) k)) ks (a, b)
  = (fold_left f ks a, fold_left g ks b).
Proof.
  revert a b; induction ks as [|k ks IH]; intros a b; simpl; [reflexivity | apply IH].
Qed.

(** Lines 141-144 as two loops of assignments. *)
Lemma init_ranks_closed_form (corpus : corpus_t) :
  init_ranks corpus
  = Ok (fold_left (fun ip k => dict_set ip k (1 / len corpus)) (keys corpus) [],
        fold_left (fun cross k => dict_set cross k []) (keys corpus) []).
Proof.
  unfold init_ranks. cbv zeta.
  rewrite (for_each_ext _ (fun tables pages =>
                             Ok (dict_set (fst tables) pages (1 / len corpus),
                                 dict_set (snd tables) pages []))).
  - rewrite for_each_pure. f_equal.
    apply (fold_left_pair (fun (ip : dict Q) k => dict_set ip k (1 / len corpus))
                          (fun (cross : dict (list string)) k => dict_set cross k [])).
  - intros t k Hk. rewrite py_div_len; [reflexivity|].
    destruct corpus; [contradiction | congruence].
Qed.

(** Lines 148-150 for one [page] append the closed form to its list. *)
Lemma add_backlinks_closed_form (corpus : corpus_t) (cross : dict (list string))
  (page : string) (bl0 : list string) :
  dict_get cross page = Some bl0 ->
  add_backlinks corpus cross page
  = Ok (dict_set cross page (bl0 ++ backlinks_of corpus page)).
Proof.
  unfold add_backlinks, backlinks_of.
  assert (Hincl : incl (keys corpus) (keys corpus)) by apply incl_refl.
  revert Hincl. generalize (keys corpus) at 1 3 4. intros ks.
  revert cross bl0. induction ks as [|k ks IH]; intros cross bl0 Hincl Hget.
  - simpl. now rewrite app_nil_r, dict_set_same.
  - assert (Hk : In k (keys corpus)) by (apply Hincl; now left).
    assert (Hks : incl ks (keys corpus)) by (intros x Hx; apply Hincl; now right).
    apply dict_get_In in Hk as [ls Hls].
    cbn [for_each filter]. unfold getitem at 1. rewrite Hls. cbn [bind].
    destruct (set_mem page ls).
    + apply getitem_Ok in Hget. rewrite Hget. cbn [bind].
      rewrite (IH _ (bl0 ++ [k]) Hks) by apply dict_get_set_same.
      now rewrite dict_set_twice, <- app_assoc.
    + now apply IH.
Qed.

(** The loop of line 147 over distinct pages with empty lists. *)
Lemma fill_backlinks_closed_form (corpus : corpus_t) (ps : list string)
  (cross : dict (list string)) :
  NoDup ps -> (forall p, In p ps -> dict_get cross p = Some []) ->
  for_each (add_backlinks corpus) ps cross
  = Ok (fold_left (fun c p => dict_set c p (backlinks_of corpus p)) ps cross).
Proof.
  revert cross. induction ps as [|p ps IH]; intros cross Hnd Hempty; [reflexivity|].
  inversion Hnd as [|? ? Hp Hnd']; subst. cbn [for_each fold_left].
  rewrite (add_backlinks_closed_form corpus cross p [])
    by (apply Hempty; now left).
  cbn [bind app]. apply IH; [exact Hnd'|].
  intros q Hq. rewrite dict_get_set_other by (intros ->; contradiction).
  apply Hempty. now right.
Qed.

Lemma existsb_eqb_In (q : string) (ks : list string) :
  existsb (String.eqb q) ks = true <-> In q ks.
Proof. apply set_mem_In. Qed.

(** Lines 141-150 in closed form: the backlink lists are assigned page by
    page. *)
Lemma init_tables_closed_form (corpus : corpus_t) :
  let cross0 := fold_left (fun cross k => dict_set cross k []) (keys corpus) [] in
  init_tables corpus
  = Ok (fold_left (fun ip k => dict_set ip k (1 / len corpus)) (keys corpus) [],
        fold_left (fun c p => dict_set c p (backlinks_of corpus p))
                  (keys cross0) cross0).
Proof.
  intros cross0. unfold init_tables. rewrite init_ranks_closed_form. cbn [bind].
  fold cross0. rewrite fill_backlinks_closed_form; [reflexivity | |].
  - apply NoDup_keys_fold_dict_set. constructor.
  - intros p Hp. apply dict_get_In in Hp as [v Hv].
    unfold cross0 in *. rewrite (dict_get_fold_set _ (fun _ => [])) in *.
    destruct (existsb (String.eqb p) (keys corpus)); [reflexivity | discriminate].
Qed.

Lemma init_tables_get (corpus : corpus_t) (ip : dict Q) (cross : dict (list string)) :
  init_tables corpus = Ok (ip, cross) ->
  forall p,
    (In p (keys corpus) ->
     dict_get ip p = Some (1 / len corpus) /\
     dict_get cross p = Some (backlinks_of corpus p)) /\
    (~ In p (keys corpus) -> dict_get ip p = None /\ dict_get cross p = None).
Proof.
  rewrite init_tables_closed_form. cbv zeta. intros H; injection H as <- <-. intros p.
  set (cross0 := fold_left (fun cross k => dict_set cross k []) (keys corpus) []).
  rewrite !dict_get_fold_set.
  assert (Hk : existsb (String.eqb p) (keys cross0)
               = existsb (String.eqb p) (keys corpus)).
  { destruct (existsb (String.eqb p) (keys corpus)) eqn:E.
    - apply existsb_eqb_In, dict_get_In. unfold cross0.
      rewrite (dict_get_fold_set _ (fun _ => [])), E. eauto.
    - apply set_mem_false, dict_get_None. unfold cross0.
      now rewrite (dict_get_fold_set _ (fun _ => [])), E. }
  rewrite Hk. unfold cross0. rewrite (dict_get_fold_set _ (fun _ => [])).
  split; intros Hp.
  - apply existsb_eqb_In in Hp. rewrite Hp. split; reflexivity.
  - apply set_mem_false in Hp. unfold set_mem in Hp. rewrite Hp. split; reflexivity.
Qed.

(** Every backlink of [p] is a page whose link set contains [p]. *)
Lemma backlinks_of_In (corpus : corpus_t) (p q : string) :
  In q (backlinks_of corpus p) <->
  In q (keys corpus) /\ exists ls, dict_get corpus q = Some ls /\ In p ls.
Proof.
  unfold backlinks_of. rewrite filter_In. split.
  - intros [Hq H]. split; [exact Hq|].
    destruct (dict_get corpus q) as [ls|]; [|discriminate].
    exists ls. split; [reflexivity | now apply set_mem_In].
  - intros [Hq (ls & Hls & Hp)]. split; [exact Hq|].
    rewrite Hls. now apply set_mem_In.
Qed.

(** C10: in the backlink table built by [iterate_pagerank], every page [q]
    listed for a page [p] has [p] in its own link set, so [corpus[q]] is
    not empty and the division by [len(corpus[q])] of line 166 is defined:
    it never raises [ZeroDivisionError]. *)
Theorem C10_backlink_divisor_nonzero
  (corpus : corpus_t) (ip : dict Q) (cross : dict (list string))
  (p q : string) (bl : list string) :
  init_tables corpus = Ok (ip, cross) ->
  dict_get cross p = Some bl ->
  In q bl ->
  exists ls,
    dict_get corpus q = Some ls /\ In p ls /\
    (0 < List.length ls)%nat /\
    forall r, py_div r (len ls) = Ok (r / len ls).
Proof.
  intros Hinit Hbl Hq.
  destruct (init_tables_get _ _ _ Hinit p) as [Hin Hout].
  destruct (in_dec string_dec p (keys corpus)) as [Hp|Hp].
  - destruct (Hin Hp) as [_ Hc]. rewrite Hc in Hbl. injection Hbl as <-.
    apply backlinks_of_In in Hq as [_ (ls & Hls & Hpl)].
    exists ls. split; [exact Hls|]. split; [exact Hpl|].
    assert (Hne : ls <> []) by (intros ->; contradiction).
    split; [destruct ls; [congruence | simpl; lia]|].
    intros r. now apply py_div_len.
  - destruct (Hout Hp) as [_ Hc]. congruence.
Qed.

Lemma C10_backlink_divisor_nonzero_witness :
  init_tables ex_AB
  = Ok ([("A.html", 1 # 2); ("B.html", 1 # 2)],
        [("A.html", ["B.html"]); ("B.html", [])]) /\
  dict_get [("A.html", ["B.html"]); ("B.html", [])] "A.html" = Some ["B.html"] /\
  In "B.html" ["B.html"] /\
  exists ls,
    dict_get ex_AB "B.html" = Some ls /\ In "A.html" ls /\
    (0 < List.length ls)%nat /\
    forall r, py_div r (len ls) = Ok (r / len ls).
Proof.
  split; [reflexivity|]. split; [reflexivity|]. split; [left; reflexivity|].
  apply (C10_backlink_divisor_nonzero ex_AB
           [("A.html", 1 # 2); ("B.html", 1 # 2)]
           [("A.html", ["B.html"]); ("B.html", [])]
           "A.html" "B.html" ["B.html"]);
    [reflexivity | reflexivity | left; reflexivity].
Defined.

Section PassFacts.
Variables (corpus : corpus_t) (d : Q) (ip0 : dict Q) (cross : dict (list string)).
Hypothesis Hinit : init_tables corpus = Ok (ip0, cross).

Lemma pass_invariant_init (o p : option Q) : pass_invariant corpus (mkIter ip0 o p).
Proof.
  split; simpl.
  - intros k. destruct (init_tables_get _ _ _ Hinit k) as [Hin Hout]. split.
    + intros Hk. destruct (in_dec string_dec k (keys corpus)) as [I|N]; [exact I|].
      destruct (Hout N) as [Hnone _]. apply dict_get_None in Hnone. contradiction.
    + intros Hk. destruct (Hin Hk) as [Hsome _]. apply dict_get_In. eauto.
  - intros q Hq _. now destruct (init_tables_get _ _ _ Hinit q) as [[? _] _].
Qed.

Lemma linkless_sum_Ok (ip : dict Q) :
  (forall k, In k (keys ip) -> In k (keys corpus)) ->
  exists s, linkless_sum corpus ip = Ok s.
Proof.
  intros Hsub. unfold linkless_sum.
  destruct (for_each_invariant
              (fun ranged_sum pages =>
                 ls <- getitem corpus pages ;;
                 if negb (List.length ls =? 0)%nat then
                   r <- getitem ip pages ;;
                   q <- py_div r (len ls) ;;
                   Ok (ranged_sum + q)
                 else Ok ranged_sum)
              (fun _ => True) (keys ip)) with (s := 0) as (s & Hs & _); eauto.
  intros s x Hx _.
  destruct (getitem_In corpus x (Hsub x Hx)) as [ls ->]. cbn [bind].
  destruct ls as [|l ls]; cbn [List.length Nat.eqb negb]; [eauto|].
  destruct (getitem_In ip x Hx) as [r ->]. cbn [bind].
  rewrite py_div_len by congruence. cbn [bind]. eauto.
Qed.

Lemma ranged_sum_of_Ok (ip : dict Q) (page : string) :
  (forall k, In k (keys corpus) -> In k (keys ip)) ->
  exists s, ranged_sum_of corpus ip (backlinks_of corpus page) = Ok s.
Proof.
  intros Hsup. unfold ranged_sum_of.
  destruct (for_each_invariant
              (fun ranged_sum links =>
                 ls <- getitem corpus links ;;
                 r <- getitem ip links ;;
                 q <- py_div r (len ls) ;;
                 Ok (ranged_sum + q))
              (fun _ => True) (backlinks_of corpus page)) with (s := 0)
    as (s & Hs & _); eauto.
  intros s x Hx _. apply backlinks_of_In in Hx as [Hk (ls & Hls & Hp)].
  apply getitem_Ok in Hls. rewrite Hls. cbn [bind].
  destruct (getitem_In ip x (Hsup x Hk)) as [r ->]. cbn [bind].
  rewrite py_div_len by (intros ->; contradiction). cbn [bind]. eauto.
Qed.

(** The body of the [for] loop never raises; a page without backlinks
    leaves every variable as it was. *)
Lemma update_page_Ok (st : iter_state) (pages : string) :
  pass_invariant corpus st -> In pages (keys corpus) ->
  exists st',
    update_page corpus cross d st pages = Ok st' /\
    pass_invariant corpus st' /\
    (backlinks_of corpus pages = [] -> st' = st) /\
    (backlinks_of corpus pages <> [] ->
     page_rank st' <> None /\ old_rank st' <> None).
Proof.
  intros [Hkeys Hfix] Hp. unfold update_page.
  destruct (init_tables_get _ _ _ Hinit pages) as [Hin _].
  destruct (Hin Hp) as [_ Hc]. apply getitem_Ok in Hc. rewrite Hc. cbn [bind].
  destruct (backlinks_of corpus pages) as [|b bl] eqn:Ebl; cbn [List.length Nat.eqb].
  - destruct (linkless_sum_Ok (iterative_probablity st)) as [s ->].
    { intros k; apply Hkeys. }
    cbn [bind]. exists st. repeat split; auto; try apply Hkeys; congruence.
  - destruct (ranged_sum_of_Ok (iterative_probablity st) pages) as [s Hs].
    { intros k; apply Hkeys. }
    rewrite Ebl in Hs. rewrite Hs. cbn [bind].
    rewrite py_div_len by (destruct corpus; [contradiction | congruence]).
    cbn [bind].
    assert (Hpi : In pages (keys (iterative_probablity st))) by now apply Hkeys.
    destruct (getitem_In _ _ Hpi) as [old ->]. cbn [bind].
    eexists. split; [reflexivity|].
    split; [split|]; cbn [iterative_probablity page_rank old_rank].
    + intros k. rewrite keys_dict_set_present by assumption. apply Hkeys.
    + intros q Hq Hbl. rewrite dict_get_set_other; [now apply Hfix|].
      intros ->. congruence.
    + split; [congruence | intros _; split; discriminate].
Qed.

(** Processing a page leaves the rank of every other page alone. *)
Lemma update_page_other (st st' : iter_state) (pages q : string) :
  update_page corpus cross d st pages = Ok st' -> pages <> q ->
  dict_get (iterative_probablity st') q = dict_get (iterative_probablity st) q.
Proof.
  unfold update_page. intros H Hne.
  apply bind_Ok in H as (bl & _ & H).
  destruct (List.length bl =? 0)%nat.
  - apply bind_Ok in H as (_ & _ & H). now injection H as <-.
  - apply bind_Ok in H as (s & _ & H). apply bind_Ok in H as (e & _ & H).
    apply bind_Ok in H as (old & _ & H). injection H as <-.
    cbn [iterative_probablity]. now apply dict_get_set_other.
Qed.

(** Processing a page that has backlinks binds [old_rank] to its rank
    before and [page_rank] to its rank after. *)
Lemma update_page_linked (st st' : iter_state) (pages : string) :
  In pages (keys corpus) -> backlinks_of corpus pages <> [] ->
  update_page corpus cross d st pages = Ok st' ->
  old_rank st' = dict_get (iterative_probablity st) pages /\
  page_rank st' = dict_get (iterative_probablity st') pages /\
  page_rank st' <> None.
Proof.
  intros Hp Hbl. unfold update_page.
  destruct (init_tables_get _ _ _ Hinit pages) as [Hin _].
  destruct (Hin Hp) as [_ Hc]. apply getitem_Ok in Hc. rewrite Hc. cbn [bind].
  destruct (backlinks_of corpus pages) as [|b bl]; [congruence|].
  cbn [List.length Nat.eqb]. intros H.
  apply bind_Ok in H as (s & _ & H). apply bind_Ok in H as (e & _ & H).
  apply bind_Ok in H as (old & Hold & H). injection H as <-.
  cbn [iterative_probablity old_rank page_rank]. apply getitem_Ok in Hold.
  rewrite dict_get_set_same. repeat split; [now symmetry | discriminate].
Qed.

(** A full pass never raises. *)
Lemma one_pass_Ok (st : iter_state) :
  pass_invariant corpus st ->
  exists st', one_pass corpus cross d st = Ok st' /\ pass_invariant corpus st'.
Proof.
  intros Hinv. unfold one_pass.
  apply (for_each_invariant (update_page corpus cross d) (pass_invariant corpus));
    [|exact Hinv].
  intros s x Hx Hs.
  destruct (update_page_Ok s x Hs) as (s' & E & I & _); [|eauto].
  now apply (proj1 Hinv).
Qed.

(** The only exception of the loop is the unbound variable of line 171. *)
Lemma iterate_loop_raises (fuel : nat) (st : iter_state) (e : exn) :
  pass_invariant corpus st ->
  iterate_loop fuel corpus cross d st = Some (Raise e) -> e = UnboundLocalError.
Proof.
  revert st; induction fuel as [|fuel IH]; intros st Hinv; simpl; [discriminate|].
  destruct (one_pass_Ok st Hinv) as (st' & -> & Hinv').
  unfold converged.
  destruct (old_rank st') as [o|]; [destruct (page_rank st') as [p|]|];
    try (intros H; injection H as <-; reflexivity).
  destruct (Qlt_bool (Qabs (o - p)) (1 # 10000)); [discriminate | now apply IH].
Qed.

(** A page that nothing links to is returned with its initial rank. *)
Lemma iterate_loop_keeps_initial_rank (fuel : nat) (st : iter_state) (ranks : dict Q) :
  pass_invariant corpus st ->
  iterate_loop fuel corpus cross d st = Some (Ok ranks) ->
  forall p, In p (keys corpus) -> backlinks_of corpus p = [] ->
            dict_get ranks p = Some (1 / len corpus).
Proof.
  revert st; induction fuel as [|fuel IH]; intros st Hinv; simpl; [discriminate|].
  destruct (one_pass_Ok st Hinv) as (st' & -> & Hinv').
  destruct (converged st') as [[|]|]; [| now apply IH | discriminate].
  intros H; injection H as <-. apply Hinv'.
Qed.
(** Where the stop test agrees with its description: when the last page
    of the pass has a backlink, line 171 compares the rank of that page
    before and after the pass. *)
Lemma converged_reads_last_page (st st' : iter_state) (ks : list string)
  (last_page : string) :
  pass_invariant corpus st ->
  keys (iterative_probablity st) = ks ++ [last_page] ->
  ~ In last_page ks ->
  backlinks_of corpus last_page <> [] ->
  one_pass corpus cross d st = Ok st' ->
  exists old new,
    dict_get (iterative_probablity st) last_page = Some old /\
    dict_get (iterative_probablity st') last_page = Some new /\
    converged st' = Ok (Qlt_bool (Qabs (old - new)) (1 # 10000)).
Proof.
  intros Hinv Hkeys Hlast Hbl. unfold one_pass. rewrite Hkeys, for_each_app.
  intros H. apply bind_Ok in H as (s1 & Hs1 & H). cbn [for_each] in H.
  apply bind_Ok in H as (s2 & Hs2 & H). injection H as <-.
  assert (Hsame : dict_get (iterative_probablity s1) last_page
                  = dict_get (iterative_probablity st) last_page).
  { clear Hkeys Hinv Hs2. revert st Hs1.
    induction ks as [|k ks IH]; intros st Hs1; simpl in Hs1.
    - now injection Hs1 as <-.
    - apply bind_Ok in Hs1 as (s0 & Hk & Hrest).
      rewrite (IH (fun H => Hlast (or_intror H)) _ Hrest).
      apply (update_page_other _ _ _ _ Hk). intros ->. apply Hlast. now left. }
  assert (Hp : In last_page (keys corpus)).
  { apply Hinv. rewrite Hkeys. apply in_or_app. right. now left. }
  destruct (update_page_linked _ _ _ Hp Hbl Hs2) as (Hold & Hnew & Hsome).
  rewrite Hsame in Hold. unfold converged. rewrite Hold, Hnew.
  destruct (dict_get (iterative_probablity st) last_page) as [old|] eqn:Eo.
  - destruct (dict_get (iterative_probablity s2) last_page) as [new|] eqn:En.
    + exists old, new. repeat split; reflexivity.
    + rewrite Hnew in Hsome. congruence.
  - exfalso. apply dict_get_None in Eo. apply Eo. rewrite Hkeys.
    apply in_or_app. right. now left.
Qed.
End PassFacts.

(** [iterate_pagerank] never raises [ZeroDivisionError] or [KeyError]: if
    it raises, it is the [UnboundLocalError] of line 171. *)
Lemma iterate_pagerank_raises (fuel : nat) (corpus : corpus_t) (d : Q) (e : exn) :
  iterate_pagerank fuel corpus d = Some (Raise e) -> e = UnboundLocalError.
Proof.
  unfold iterate_pagerank.
  destruct (init_tables corpus) as [[ip cross]|e0] eqn:Hinit.
  - apply (iterate_loop_raises corpus d ip cross Hinit).
    apply (pass_invariant_init corpus ip cross Hinit).
  - rewrite init_tables_closed_form in Hinit. discriminate.
Qed.

(** Whatever [iterate_pagerank] returns, a page without backlinks has the
    rank [1/N] it started with: its rank is never updated. *)
Lemma iterate_pagerank_keeps_initial_rank
  (fuel : nat) (corpus : corpus_t) (d : Q) (ranks : dict Q) (p : string) :
  iterate_pagerank fuel corpus d = Some (Ok ranks) ->
  In p (keys corpus) -> backlinks_of corpus p = [] ->
  dict_get ranks p = Some (1 / len corpus).
Proof.
  unfold iterate_pagerank.
  destruct (init_tables corpus) as [[ip cross]|e0] eqn:Hinit; [|discriminate].
  intros H. apply (iterate_loop_keeps_initial_rank corpus d ip cross Hinit _ _ _
                     (pass_invariant_init corpus ip cross Hinit None None) H).
Qed.

Lemma filter_all_false {A : Type} (f : A -> bool) (l : list A) :
  (forall x, In x l -> f x = false) -> filter f l = [].
Proof.
  induction l as [|a l IH]; intros H; simpl; [reflexivity|].
  rewrite (H a) by (left; reflexivity). apply IH. intros x Hx. apply H. now right.
Qed.

Lemma backlinks_of_no_links (corpus : corpus_t) (p : string) :
  Forall (fun kv => snd kv = []) corpus -> backlinks_of corpus p = [].
Proof.
  intros Hall. apply filter_all_false. intros k _.
  destruct (dict_get corpus k) as [ls|] eqn:E; [|reflexivity].
  apply dict_get_Some_In in E. rewrite Forall_forall in Hall.
  apply Hall in E. simpl in E. now subst.
Qed.

(** On a corpus without any link no page is ever updated, [old_rank] is
    never bound, and line 171 raises after the first pass. *)
Lemma iterate_pagerank_without_links (fuel : nat) (corpus : corpus_t) (d : Q) :
  Forall (fun kv => snd kv = []) corpus ->
  iterate_pagerank (S fuel) corpus d = Some (Raise UnboundLocalError).
Proof.
  intros Hall. unfold iterate_pagerank.
  destruct (init_tables corpus) as [[ip cross]|e0] eqn:Hinit;
    [|rewrite init_tables_closed_form in Hinit; discriminate].
  pose proof (pass_invariant_init corpus ip cross Hinit None None) as Hinv.
  assert (Hpass : one_pass corpus cross d (mkIter ip None None)
                  = Ok (mkIter ip None None)).
  { unfold one_pass. cbn [iterative_probablity].
    assert (Hsub : incl (keys ip) (keys corpus)) by (intros k; apply Hinv).
    revert Hsub. generalize (keys ip). intros xs.
    induction xs as [|x xs IH]; intros Hsub; simpl; [reflexivity|].
    destruct (update_page_Ok corpus d ip cross Hinit _ x Hinv) as (st' & -> & _ & Hst & _).
    { apply Hsub. now left. }
    rewrite (Hst (backlinks_of_no_links corpus x Hall)). cbn [bind].
    apply IH. intros k Hk. apply Hsub. now right. }
  simpl. rewrite Hpass. reflexivity.
Qed.

(** More fuel does not change a result: once the loop has stopped, it has
    stopped. *)
Lemma iterate_loop_more_fuel (fuel extra : nat) (corpus : corpus_t)
  (cross : dict (list string)) (d : Q) (st : iter_state) (r : result (dict Q)) :
  iterate_loop fuel corpus cross d st = Some r ->
  iterate_loop (fuel + extra) corpus cross d st = Some r.
Proof.
  revert st; induction fuel as [|fuel IH]; intros st; simpl; [discriminate|].
  destruct (one_pass corpus cross d st) as [st'|e]; [|auto].
  destruct (converged st') as [[|]|e]; auto.
Qed.

Lemma iterate_pagerank_more_fuel (fuel extra : nat) (corpus : corpus_t) (d : Q)
  (r : result (dict Q)) :
  iterate_pagerank fuel corpus d = Some r ->
  iterate_pagerank (fuel + extra) corpus d = Some r.
Proof.
  unfold iterate_pagerank. destruct (init_tables corpus) as [[ip cross]|e]; [|auto].
  apply iterate_loop_more_fuel.
Qed.

(** The example of the specification: two pages that link to each other
    keep the rank 1/2 each, and the loop stops after the first pass. *)
Example iterate_cycle :
  exists a b,
    (forall fuel,
        iterate_pagerank (S fuel) ex_cycle d85
        = Some (Ok [("A.html", a); ("B.html", b)])) /\
    a == 1 # 2 /\ b == 1 # 2.
Proof.
  do 2 eexists. split; [intros fuel; reflexivity|].
  split; vm_compute; reflexivity.
Qed.

(** C1 (the code departs from the claim): on [{A: {}, B: {A}}] with
    damping 0.85 the first pass leaves B, which has no backlink, at its
    initial rank 1/2 and sets A to 0.075 + 0.85 * 0.5 = 1/2, where the rule
    of the claim gives B the rank 23/80 and A the rank 57/80; the loop
    then stops and returns 1/2 for both. *)
Theorem C1_pass_skips_pages_without_backlinks :
  exists ip cross st a,
    init_tables ex_AB = Ok (ip, cross) /\
    ip = [("A.html", 1 # 2); ("B.html", 1 # 2)] /\
    one_pass ex_AB cross d85 (mkIter ip None None) = Ok st /\
    iterative_probablity st = [("A.html", a); ("B.html", 1 # 2)] /\
    a == 1 # 2 /\
    spec_update ex_AB d85 ip "A.html" == 57 # 80 /\
    spec_update ex_AB d85 ip "B.html" == 23 # 80 /\
    forall fuel,
      iterate_pagerank (S fuel) ex_AB d85 = Some (Ok (iterative_probablity st)).
Proof.
  do 4 eexists.
  split; [reflexivity|]. split; [reflexivity|]. split; [reflexivity|].
  split; [reflexivity|]. split; [vm_compute; reflexivity|].
  split; [vm_compute; reflexivity|]. split; [vm_compute; reflexivity|].
  intros fuel. reflexivity.
Qed.

(** C2 (the code departs from the claim): on the one-page corpus
    [iterate_pagerank] raises [UnboundLocalError] at the end of the first
    pass; on [{A: {B, C}, B: {}, C: {}}] it returns after two passes a
    table whose values sum to 43/60, about 0.717. *)
Theorem C2_iterate_raises_or_loses_mass :
  (forall fuel,
      iterate_pagerank (S fuel) ex_single d85 = Some (Raise UnboundLocalError)) /\
  exists ranks,
    (forall fuel, iterate_pagerank (S (S fuel)) ex_star d85 = Some (Ok ranks)) /\
    Qsum (values ranks) == 43 # 60 /\
    ~ Qabs (Qsum (values ranks) - 1) <= 1 # 1000.
Proof.
  split; [intros fuel; reflexivity|].
  eexists. split; [intros fuel; reflexivity|]. split.
  - vm_compute. reflexivity.
  - intros H. vm_compute in H. apply H. reflexivity.
Qed.

(** C4 (the code departs from the claim): on
    [{A: {B}, B: {A}, C: {A}}] the last page processed is C; nothing links
    to C, so its rank is 1/3 before and after the first pass, a change of
    0.  The test of line 171 reads the values left by B, the last page that
    was updated (1/3 and 689/1200), is false, and the loop goes on: it
    stops after 25 passes with other ranks.  On the one-page corpus the
    rank of the only page does not change in the first pass either, and
    the test raises instead of stopping the loop. *)
Theorem C4_stop_test_reads_last_updated_page :
  (exists ip cross st,
      init_tables ex_tail = Ok (ip, cross) /\
      one_pass ex_tail cross d85 (mkIter ip None None) = Ok st /\
      last (keys ip) "" = "C.html" /\
      dict_get ip "C.html" = Some (1 # 3) /\
      dict_get (iterative_probablity st) "C.html" = Some (1 # 3) /\
      Qabs ((1 # 3) - (1 # 3)) < 1 # 10000 /\
      dict_get ip "B.html" = old_rank st /\
      dict_get (iterative_probablity st) "B.html" = page_rank st /\
      converged st = Ok false /\
      iterate_pagerank 1 ex_tail d85 = None /\
      exists ranks,
        iterate_pagerank 25 ex_tail d85 = Some (Ok ranks) /\
        Qsum (values (iterative_probablity st)) < 2 /\
        2 < Qsum (values ranks)) /\
  (exists ip cross st,
      init_tables ex_single = Ok (ip, cross) /\
      one_pass ex_single cross d85 (mkIter ip None None) = Ok st /\
      dict_get ip "A.html" = Some 1 /\
      dict_get (iterative_probablity st) "A.html" = Some 1 /\
      converged st = Raise UnboundLocalError /\
      forall fuel,
        iterate_pagerank (S fuel) ex_single d85 = Some (Raise UnboundLocalError)).
Proof.
  split.
  - do 3 eexists.
    split; [reflexivity|]. split; [reflexivity|].
    repeat (split; [reflexivity|]).
    eexists. split; [vm_compute; reflexivity|].
    split; vm_compute; reflexivity.
  - do 3 eexists.
    split; [reflexivity|]. split; [reflexivity|].
    repeat (split; [reflexivity|]). intros fuel. reflexivity.
Qed.

(** ** The [random] module *)

Lemma randbelow_lt (n : nat) (g : rng) : (0 < n)%nat -> (fst (randbelow n g) < n)%nat.
Proof.
  intros Hn. unfold randbelow, next_raw. cbn [fst].
  pose proof (Z.mod_pos_bound (tape g (pos g)) (Z.of_nat n) ltac:(lia)). lia.
Qed.

Lemma list_item_lt {A : Type} (l : list A) (i : nat) :
  (i < List.length l)%nat -> exists a, list_item l i = Ok a /\ In a l.
Proof.
  intros Hi. unfold list_item.
  destruct (nth_error l i) as [a|] eqn:E.
  - exists a. split; [reflexivity | eapply nth_error_In; eauto].
  - apply nth_error_None in E. lia.
Qed.

(** [random.choice] on a non-empty sequence returns one of its elements. *)
Lemma random_choice_Ok (seq : list string) (g : rng) :
  seq <> [] -> exists x g', random_choice seq g = Ok (x, g') /\ In x seq.
Proof.
  intros Hne. unfold random_choice. destruct seq as [|s0 seq]; [congruence|].
  pose proof (randbelow_lt (List.length (s0 :: seq)) g) as Hlt.
  destruct (randbelow (List.length (s0 :: seq)) g) as [i g'].
  destruct (list_item_lt (s0 :: seq) i) as (a & Ha & Hin).
  { apply Hlt. simpl. lia. }
  rewrite Ha. simpl. eauto.
Qed.

Lemma div2_between (lo hi : nat) :
  (lo < hi)%nat -> (lo <= (lo + hi) / 2 < hi)%nat.
Proof.
  intros H. pose proof (Nat.div_mod_eq (lo + hi) 2) as E.
  pose proof (Nat.mod_upper_bound (lo + hi) 2). lia.
Qed.

(** The bisection stays between its bounds. *)
Lemma bisect_loop_bounds (fuel : nat) (a : list Q) (x : Q) (lo hi : nat) :
  (lo <= hi)%nat -> (lo <= bisect_loop fuel a x lo hi <= hi)%nat.
Proof.
  revert lo hi; induction fuel as [|fuel IH]; intros lo hi Hle;
    cbn [bisect_loop]; [lia|].
  destruct (Nat.ltb_spec lo hi) as [Hlt|Hge]; [|lia].
  pose proof (div2_between lo hi Hlt) as Hmid.
  destruct (Qlt_bool x (nth ((lo + hi) / 2) a 0)).
  - specialize (IH lo ((lo + hi) / 2)%nat). lia.
  - specialize (IH (S ((lo + hi) / 2)) hi). lia.
Qed.

(** [hi - lo] rounds are enough: with more fuel the loop does the same,
    so the [while] of [bisect_right] has ended. *)
Lemma bisect_loop_fuel (f1 f2 : nat) (a : list Q) (x : Q) (lo hi : nat) :
  (hi - lo <= f1)%nat -> (hi - lo <= f2)%nat ->
  bisect_loop f1 a x lo hi = bisect_loop f2 a x lo hi.
Proof.
  revert f2 lo hi. induction f1 as [|f1 IH]; intros f2 lo hi H1 H2.
  - destruct f2 as [|f2]; cbn [bisect_loop]; [reflexivity|].
    destruct (Nat.ltb_spec lo hi); [lia | reflexivity].
  - destruct f2 as [|f2]; cbn [bisect_loop].
    + destruct (Nat.ltb_spec lo hi); [lia | reflexivity].
    + destruct (Nat.ltb_spec lo hi) as [Hlt|Hge]; [|reflexivity].
      pose proof (div2_between lo hi Hlt) as Hmid.
      destruct (Qlt_bool x (nth ((lo + hi) / 2) a 0)); apply IH; lia.
Qed.

Lemma bisect_le_hi (a : list Q) (x : Q) (hi : nat) : (bisect a x 0 hi <= hi)%nat.
Proof.
  unfold bisect. pose proof (bisect_loop_bounds (hi - 0) a x 0 hi). lia.
Qed.

Lemma length_accumulate_from (acc : Q) (ws : list Q) :
  List.length (accumulate_from acc ws) = List.length ws.
Proof.
  revert acc; induction ws as [|w ws IH]; intros acc; simpl; [reflexivity|].
  now rewrite IH.
Qed.

Lemma length_accumulate (ws : list Q) : List.length (accumulate ws) = List.length ws.
Proof.
  destruct ws as [|w ws]; simpl; [reflexivity | now rewrite length_accumulate_from].
Qed.

Lemma accumulate_from_pos (acc : Q) (ws : list Q) :
  0 < acc -> Forall (fun w => 0 <= w) ws ->
  Forall (fun c => 0 < c) (accumulate_from acc ws).
Proof.
  revert acc; induction ws as [|w ws IH]; intros acc Hacc Hws; simpl; [constructor|].
  inversion Hws as [|? ? Hw Hws']; subst.
  assert (0 < acc + w) by lra. constructor; [assumption | now apply IH].
Qed.

Lemma accumulate_from_zero (acc : Q) (ws : list Q) :
  acc == 0 -> Forall (fun w => w == 0) ws ->
  Forall (fun c => c == 0) (accumulate_from acc ws).
Proof.
  revert acc; induction ws as [|w ws IH]; intros acc Hacc Hws; simpl; [constructor|].
  inversion Hws as [|? ? Hw Hws']; subst.
  assert (acc + w == 0) by lra. constructor; [assumption | now apply IH].
Qed.

Lemma list_item_last_Forall {A : Type} (P : A -> Prop) (l : list A) :
  l <> [] -> Forall P l ->
  exists a, list_item l (List.length l - 1) = Ok a /\ P a.
Proof.
  intros Hne Hall. destruct (list_item_lt l (List.length l - 1)) as (a & Ha & Hin).
  { destruct l; [congruence | simpl; lia]. }
  exists a. split; [exact Ha|]. rewrite Forall_forall in Hall. auto.
Qed.

(** [random.choices] with as many weights as elements, a positive first
    weight and no negative weight returns an element of the population. *)
Lemma random_choices_Ok (population : list string) (w0 : Q) (ws : list Q) (g : rng) :
  List.length population = List.length (w0 :: ws) ->
  0 < w0 -> Forall (fun w => 0 <= w) ws ->
  exists x g', random_choices population (w0 :: ws) g = Ok (x, g') /\ In x population.
Proof.
  intros Hlen Hw0 Hws. unfold random_choices.
  rewrite length_accumulate, <- Hlen, Nat.eqb_refl. cbn [negb].
  destruct (list_item_last_Forall (fun c => 0 < c) (accumulate (w0 :: ws)))
    as (total & Ht & Hpos).
  { simpl. discriminate. }
  { simpl. constructor; [assumption | now apply accumulate_from_pos]. }
  rewrite length_accumulate, <- Hlen in Ht. rewrite Ht. cbn [bind].
  destruct (Qle_bool total 0) eqn:E; [apply Qle_bool_iff in E; lra|].
  destruct (random g) as [r g'].
  destruct (list_item_lt population
              (bisect (accumulate (w0 :: ws)) (r * total) 0
                      (List.length population - 1))) as (x & Hx & Hin).
  { pose proof (bisect_le_hi (accumulate (w0 :: ws)) (r * total)
                  (List.length population - 1)).
    simpl in Hlen. lia. }
  rewrite Hx. cbn [bind]. eauto.
Qed.

(** When every weight is zero, [random.choices] raises [ValueError]. *)
Lemma random_choices_zero (population : list string) (ws : list Q) (g : rng) :
  List.length population = List.length ws -> ws <> [] ->
  Forall (fun w => w == 0) ws ->
  random_choices population ws g = Raise ValueError.
Proof.
  intros Hlen Hne Hws. unfold random_choices.
  rewrite length_accumulate, <- Hlen, Nat.eqb_refl. cbn [negb].
  destruct (list_item_last_Forall (fun c => c == 0) (accumulate ws))
    as (total & Ht & Hz).
  { destruct ws; [congruence | simpl; discriminate]. }
  { destruct ws as [|w ws]; [constructor|]. inversion Hws; subst.
    simpl. constructor; [assumption | now apply accumulate_from_zero]. }
  rewrite length_accumulate, <- Hlen in Ht. rewrite Ht. cbn [bind].
  destruct (Qle_bool total 0) eqn:E; [reflexivity|].
  assert (Hle : total <= 0) by lra. apply Qle_bool_iff in Hle. congruence.
Qed.

(** ** sample_pagerank *)

Lemma uniform_weight_pos (d n : Q) : 0 < n -> 0 < d / n + (1 - d) / n.
Proof.
  intros Hn. assert (E : d / n + (1 - d) / n == / n) by (field; lra).
  rewrite E. now apply Qinv_lt_0_compat.
Qed.

Lemma Qdiv_nonneg (x n : Q) : 0 <= x -> 0 < n -> 0 <= x / n.
Proof. intros Hx Hn. apply Qle_shift_div_l; [exact Hn | lra]. Qed.

Lemma weights_positive_get (corpus : corpus_t) (d : Q) (page l0 : string)
  (ls : list string) :
  weights_positive corpus d = true ->
  dict_get corpus page = Some (l0 :: ls) ->
  0 < round4 ((1 - d) / len corpus) + round4 (d / len (l0 :: ls)).
Proof.
  intros Hw Hget. unfold weights_positive in Hw. rewrite forallb_forall in Hw.
  apply dict_get_Some_In in Hget. apply Hw in Hget. simpl in Hget.
  now apply Qlt_bool_iff.
Qed.

(** What [sample_pagerank] needs of a transition distribution: its keys
    are corpus pages, its first weight is positive and none is negative. *)
Lemma transition_model_weights (corpus : corpus_t) (page : string) (d : Q) :
  corpus_wf corpus -> d < 1 -> weights_positive corpus d = true ->
  In page (keys corpus) ->
  exists dist w0 ws,
    transition_model corpus page d = Ok dist /\
    incl (keys dist) (keys corpus) /\
    values dist = w0 :: ws /\ 0 < w0 /\ Forall (fun w => 0 <= w) ws.
Proof.
  intros Hwf Hd Hw Hpage.
  apply dict_get_In in Hpage as [links Hget].
  destruct (corpus_wf_links _ _ _ Hwf Hget) as [Hndl Hincl].
  pose proof (len_pos corpus (dict_get_nonempty _ _ _ Hget)) as HN.
  destruct links as [|l0 ls].
  - rewrite (transition_linkless corpus page d (proj1 Hwf) Hget).
    pose proof (uniform_weight_pos d (len corpus) HN) as Hu.
    set (u := d / len corpus + (1 - d) / len corpus) in *.
    exists (map (fun k => (k, u)) (keys corpus)), u,
           (map (fun _ => u) (tl (keys corpus))).
    split; [reflexivity|]. split.
    { rewrite (keys_map_const (keys corpus) (fun _ => u)). apply incl_refl. }
    split.
    { unfold values. rewrite map_map. cbn [snd].
      destruct (keys corpus) as [|k0 ks] eqn:Ek; [|reflexivity].
      apply map_eq_nil in Ek. apply dict_get_nonempty in Hget. contradiction. }
    split; [exact Hu|].
    apply Forall_forall. intros w Hin. apply in_map_iff in Hin as (k & <- & _). lra.
  - rewrite (transition_linked corpus page d (l0 :: ls) (proj1 Hwf) Hndl Hget)
      by discriminate.
    pose proof (weights_positive_get _ _ _ _ _ Hw Hget) as Hpos.
    assert (Hbase : 0 <= round4 ((1 - d) / len corpus)).
    { apply round4_nonneg, Qdiv_nonneg; [lra | exact HN]. }
    set (base := round4 ((1 - d) / len corpus)) in *.
    set (link := round4 (d / len (l0 :: ls))) in *.
    set (rest := filter (fun k => negb (set_mem k (l0 :: ls))) (keys corpus)).
    exists (map (fun l => (l, base + link)) (l0 :: ls) ++ map (fun k => (k, base)) rest),
           (base + link),
           (map (fun _ => base + link) ls ++ map (fun _ => base) rest).
    split; [reflexivity|]. split.
    + rewrite keys_app, (keys_map_const (l0 :: ls) (fun _ => base + link)),
        (keys_map_const rest (fun _ => base)).
      intros k Hk. apply in_app_or in Hk as [Hk|Hk]; [now apply Hincl|].
      now apply filter_In in Hk as [Hk _].
    + split.
      { rewrite values_app, (values_map_const (l0 :: ls) (fun _ => base + link)),
          (values_map_const rest (fun _ => base)). reflexivity. }
      split; [exact Hpos|].
      apply Forall_app. split; apply Forall_forall; intros w Hin;
        apply in_map_iff in Hin as (k & <- & _); [lra | exact Hbase].
Qed.

Lemma length_keys_values {V : Type} (d : dict V) :
  List.length (keys d) = List.length (values d).
Proof. unfold keys, values. now rewrite !length_map. Qed.

(** The walk of lines 103-109 draws [n] pages of the corpus. *)
Lemma sample_loop_Ok (corpus : corpus_t) (d : Q) :
  corpus_wf corpus -> d < 1 -> weights_positive corpus d = true ->
  forall n current samples g,
    In current (keys corpus) ->
    exists drawn g',
      sample_loop n corpus d current samples g = Ok (samples ++ drawn, g') /\
      List.length drawn = n /\ incl drawn (keys corpus).
Proof.
  intros Hwf Hd Hw. induction n as [|n IH]; intros current samples g Hcur; simpl.
  - exists [], g. rewrite app_nil_r. repeat split. intros x [].
  - destruct (transition_model_weights corpus current d Hwf Hd Hw Hcur)
      as (dist & w0 & ws & -> & Hkeys & Hvals & Hw0 & Hws). cbn [bind].
    destruct (random_choices_Ok (keys dist) w0 ws g) as (x & g1 & Hx & Hin); auto.
    { rewrite <- Hvals. apply length_keys_values. }
    rewrite Hvals, Hx. cbn [bind].
    destruct (IH x (samples ++ [x]) g1 (Hkeys x Hin)) as (drawn & g' & -> & Hlen & Hincl).
    exists (x :: drawn), g'. rewrite <- app_assoc. split; [reflexivity|].
    split; [simpl; now rewrite Hlen|].
    intros y [<-|Hy]; [now apply Hkeys | now apply Hincl].
Qed.

(** Assigning to a key of a dictionary tabulated on distinct keys. *)
Lemma dict_set_tabulated {V : Type} (ks : list string) (f : string -> V)
  (k : string) (v : V) :
  NoDup ks -> In k ks ->
  dict_set (map (fun x => (x, f x)) ks) k v
  = map (fun x => (x, if String.eqb x k then v else f x)) ks.
Proof.
  induction ks as [|k0 ks IH]; intros Hnd Hin; [contradiction|].
  inversion Hnd as [|? ? Hk0 Hnd']; subst. simpl.
  destruct (String.eqb_spec k k0) as [->|Hne].
  - rewrite String.eqb_refl. f_equal. apply map_ext_in. intros x Hx.
    destruct (String.eqb_spec x k0) as [->|_]; [contradiction | reflexivity].
  - destruct (String.eqb_spec k0 k) as [E|_]; [congruence|].
    f_equal. apply IH; [assumption|]. destruct Hin; congruence.
Qed.

(** Lines 112-116 count the occurrences of every page. *)
Lemma count_samples_Ok (corpus : corpus_t) (samples : list string) :
  NoDup (keys corpus) -> incl samples (keys corpus) ->
  count_samples corpus samples
  = Ok (map (fun p => (p, Z.of_nat (count_occ string_dec samples p))) (keys corpus)).
Proof.
  intros Hnd Hincl. unfold count_samples.
  rewrite (fold_dict_set_fresh (keys corpus) (fun _ => 0%Z) []);
    [| assumption | intros k _ []]. cbn [app].
  enough (H : forall c : string -> Z,
            for_each (fun sd values =>
                        c0 <- getitem sd values ;;
                        Ok (dict_set sd values (c0 + 1)%Z))
                     samples (map (fun p => (p, c p)) (keys corpus))
            = Ok (map (fun p => (p, (c p + Z.of_nat (count_occ string_dec samples p))%Z))
                      (keys corpus))).
  { apply (H (fun _ => 0%Z)). }
  induction samples as [|x samples IH]; intros c.
  - simpl. f_equal. apply map_ext. intros p. f_equal. lia.
  - assert (Hx : In x (keys corpus)) by (apply Hincl; now left).
    cbn [for_each]. unfold getitem at 1. rewrite dict_get_map.
    destruct (in_dec string_dec x (keys corpus)); [|contradiction]. cbn [bind].
    rewrite dict_set_tabulated by assumption.
    rewrite (IH (fun y Hy => Hincl y (or_intror Hy))
                (fun p => if String.eqb p x then (c x + 1)%Z else c p)).
    f_equal. apply map_ext. intros p. f_equal. cbn [count_occ].
    destruct (string_dec x p) as [->|Hne].
    + rewrite String.eqb_refl. lia.
    + destruct (String.eqb_spec p x); [congruence | reflexivity].
Qed.

(** Lines 119-120 divide every count by [n]. *)
Lemma normalize_Ok (samples_dict : dict Z) (n : nat) :
  (0 < n)%nat ->
  normalize samples_dict n
  = Ok (map (fun kv => (fst kv, inject_Z (snd kv) / inject_Z (Z.of_nat n)))
            samples_dict).
Proof.
  intros Hn. unfold normalize.
  enough (H : forall acc,
            for_each (fun sd kv =>
                        q <- py_div (inject_Z (snd kv)) (inject_Z (Z.of_nat n)) ;;
                        Ok (sd ++ [(fst kv, q)])) samples_dict acc
            = Ok (acc ++ map (fun kv => (fst kv, inject_Z (snd kv) / inject_Z (Z.of_nat n)))
                             samples_dict)).
  { apply (H []). }
  induction samples_dict as [|kv sd IH]; intros acc; simpl.
  - now rewrite app_nil_r.
  - rewrite py_div_Ok.
    + cbn [bind]. rewrite IH, <- app_assoc. reflexivity.
    + intros E. unfold Qeq in E. simpl in E. lia.
Qed.

Lemma count_occ_unit_sum (ks : list string) (x : string) :
  NoDup ks -> In x ks ->
  list_sum (map (fun k => if string_dec x k then 1%nat else 0%nat) ks) = 1%nat.
Proof.
  induction ks as [|k ks IH]; intros Hnd Hin; [contradiction|].
  inversion Hnd as [|? ? Hk Hnd']; subst. simpl.
  destruct (string_dec x k) as [->|Hne].
  - f_equal. clear IH Hin Hnd. induction ks as [|k' ks IH]; [reflexivity|].
    simpl. destruct (string_dec k k') as [->|_].
    + exfalso. apply Hk. now left.
    + apply IH; [|now inversion Hnd']. intros H. apply Hk. now right.
  - apply IH; [assumption|]. destruct Hin; congruence.
Qed.

(** Over distinct keys that cover the samples, the counts add up to the
    number of samples. *)
Lemma count_occ_total (ks samples : list string) :
  NoDup ks -> incl samples ks ->
  list_sum (map (count_occ string_dec samples) ks) = List.length samples.
Proof.
  intros Hnd. induction samples as [|x samples IH]; intros Hincl.
  - simpl. induction ks; [reflexivity | simpl; now apply IHks; inversion Hnd].
  - assert (Hx : In x ks) by (apply Hincl; now left).
    assert (E : list_sum (map (count_occ string_dec (x :: samples)) ks)
                = (list_sum (map (fun k => if string_dec x k then 1 else 0) ks)
                   + list_sum (map (count_occ string_dec samples) ks))%nat).
    { clear. induction ks as [|k ks IHk]; [reflexivity|].
      unfold list_sum in *. cbn [map fold_right]. rewrite IHk. cbn [count_occ].
      destruct (string_dec x k); lia. }
    rewrite E, count_occ_unit_sum by assumption.
    rewrite IH by (intros y Hy; apply Hincl; now right). reflexivity.
Qed.

Lemma frequency_bounds (samples : list string) (p : string) :
  samples <> [] ->
  0 <= frequency samples (List.length samples) p <= 1.
Proof.
  intros Hne. unfold frequency.
  pose proof (count_occ_bound string_dec p samples) as Hb.
  assert (Hn : 0 < inject_Z (Z.of_nat (List.length samples))).
  { change 0 with (inject_Z 0). rewrite <- Zlt_Qlt.
    destruct samples; [congruence | simpl; lia]. }
  split.
  - apply Qdiv_nonneg; [|exact Hn].
    change 0 with (inject_Z 0). rewrite <- Zle_Qle. lia.
  - apply Qle_shift_div_r; [exact Hn|]. rewrite Qmult_1_l, <- Zle_Qle. lia.
Qed.

(** The whole of [sample_pagerank], for a corpus on which the weighted
    draw cannot fail. *)
Lemma sample_pagerank_frequencies
  (corpus : corpus_t) (d : Q) (n : nat) (g : rng) :
  corpus_wf corpus -> corpus <> [] -> d < 1 -> (1 <= n)%nat ->
  weights_positive corpus d = true ->
  exists current g1 samples g2,
    random_choice (keys corpus) g = Ok (current, g1) /\
    sample_loop n corpus d current [] g1 = Ok (samples, g2) /\
    List.length samples = n /\
    incl samples (keys corpus) /\
    sample_pagerank corpus d n g
    = Ok (map (fun p => (p, frequency samples n p)) (keys corpus)).
Proof.
  intros Hwf Hne Hd Hn Hw. unfold sample_pagerank.
  destruct (random_choice_Ok (keys corpus) g) as (current & g1 & Hc & Hin).
  { intros E. apply map_eq_nil in E. contradiction. }
  destruct (sample_loop_Ok corpus d Hwf Hd Hw n current [] g1 Hin)
    as (samples & g2 & Hloop & Hlen & Hincl).
  cbn [app] in Hloop.
  exists current, g1, samples, g2. rewrite Hc. cbn [bind]. rewrite Hloop. cbn [bind].
  rewrite (count_samples_Ok corpus samples (proj1 Hwf) Hincl). cbn [bind].
  rewrite normalize_Ok by lia. rewrite map_map. cbn [fst snd].
  repeat split; auto.
Qed.

Lemma ex_AB_wf : corpus_wf ex_AB.
Proof. wf_corpus. Qed.

(** On a corpus of fewer than 10000 pages one of the two rounded
    probabilities is positive, whatever the damping factor in (0,1). *)
Lemma weights_positive_small_corpus (corpus : corpus_t) (d : Q) :
  corpus_wf corpus -> 0 < d -> d < 1 -> len corpus < 10000 ->
  weights_positive corpus d = true.
Proof.
  intros [Hnd Hall] Hd0 Hd1 HN. unfold weights_positive. apply forallb_forall.
  intros [k links] Hin. rewrite Forall_forall in Hall.
  destruct (Hall _ Hin) as [Hndl Hincl]. cbn [snd] in *.
  destruct links as [|l0 ls]; [reflexivity|]. apply Qlt_bool_iff.
  assert (HNpos : 0 < len corpus).
  { apply len_pos. intros ->. contradiction. }
  assert (HLpos : 0 < len (l0 :: ls)) by (apply len_pos; discriminate).
  assert (HLN : len (l0 :: ls) <= len corpus).
  { unfold len. rewrite <- Zle_Qle. apply Nat2Z.inj_le.
    rewrite <- (length_map fst corpus). now apply NoDup_incl_length. }
  assert (Hb : 0 <= round4 ((1 - d) / len corpus)).
  { apply round4_nonneg, Qdiv_nonneg; [lra | exact HNpos]. }
  assert (Hk : 0 <= round4 (d / len (l0 :: ls))).
  { apply round4_nonneg, Qdiv_nonneg; [lra | exact HLpos]. }
  destruct (Qlt_le_dec (1 # 2) d) as [Hhi|Hlo].
  - assert (0 < round4 (d / len (l0 :: ls))); [|lra].
    apply round4_pos, Qlt_shift_div_l; [exact HLpos | lra].
  - assert (0 < round4 ((1 - d) / len corpus)); [|lra].
    apply round4_pos, Qlt_shift_div_l; [exact HNpos | lra].
Qed.

(** If both rounded probabilities of the first page drawn are zero, all
    weights are zero and the first weighted draw raises [ValueError]. *)
Lemma sample_pagerank_zero_weights
  (corpus : corpus_t) (d : Q) (n : nat) (g g1 : rng)
  (current : string) (links : list string) :
  NoDup (keys corpus) -> NoDup links -> links <> [] ->
  random_choice (keys corpus) g = Ok (current, g1) ->
  dict_get corpus current = Some links ->
  round4 ((1 - d) / len corpus) == 0 ->
  round4 (d / len links) == 0 ->
  sample_pagerank corpus d (S n) g = Raise ValueError.
Proof.
  intros Hnd Hndl Hl Hc Hget Hb Hk. unfold sample_pagerank.
  rewrite Hc. cbn [bind sample_loop].
  rewrite (transition_linked corpus current d links Hnd Hndl Hget Hl). cbn [bind].
  rewrite random_choices_zero; [reflexivity | apply length_keys_values | |].
  - destruct links; [congruence | discriminate].
  - rewrite values_app.
    rewrite (values_map_const links
               (fun _ => round4 ((1 - d) / len corpus) + round4 (d / len links))).
    rewrite (values_map_const _ (fun _ => round4 ((1 - d) / len corpus))).
    apply Forall_app. split; apply Forall_forall; intros w Hin;
      apply in_map_iff in Hin as (k & <- & _); lra.
Qed.

Lemma page_name_injective (i j : nat) : page_name i = page_name j -> i = j.
Proof.
  unfold page_name. intros E.
  apply (f_equal NilEmpty.uint_of_string) in E.
  rewrite !NilEmpty.usu in E. injection E as E.
  apply (f_equal Nat.of_uint) in E. now rewrite !DecimalNat.Unsigned.of_to in E.
Qed.

Lemma NoDup_page_names (l : list nat) : NoDup l -> NoDup (map page_name l).
Proof.
  induction 1 as [|i l Hi Hnd IH]; simpl; constructor; [|exact IH].
  intros Hin. apply in_map_iff in Hin as (j & E & Hj).
  apply page_name_injective in E. now subst.
Qed.

Lemma keys_hub_corpus (m : nat) :
  keys (hub_corpus m) = map page_name (seq 0 (S m)).
Proof.
  unfold hub_corpus, keys. cbn [map fst seq]. rewrite map_map. reflexivity.
Qed.

Lemma length_hub_corpus (m : nat) : List.length (hub_corpus m) = S m.
Proof.
  unfold hub_corpus. cbn [List.length]. now rewrite length_map, length_seq.
Qed.

Lemma hub_corpus_wf (m : nat) : corpus_wf (hub_corpus m).
Proof.
  split.
  - rewrite keys_hub_corpus. apply NoDup_page_names, seq_NoDup.
  - rewrite keys_hub_corpus. unfold hub_corpus. constructor.
    + cbn [snd]. split; [apply NoDup_page_names, seq_NoDup|].
      intros x Hx. cbn [seq map]. now right.
    + apply Forall_forall. intros kv Hin.
      apply in_map_iff in Hin as (i & <- & _). cbn [snd].
      split; [constructor | intros x []].
Qed.

Lemma hub_first_draw (m : nat) :
  random_choice (keys (hub_corpus m)) zero_tape
  = Ok (page_name 0, mkRng (fun _ => 0%Z) 1).
Proof. rewrite keys_hub_corpus. reflexivity. Qed.

Lemma hub_links (m : nat) :
  dict_get (hub_corpus m) (page_name 0) = Some (map page_name (seq 1 m)).
Proof. unfold hub_corpus. cbn [dict_get]. now rewrite String.eqb_refl. Qed.

(** The walk on a hub whose two probabilities round to zero. *)
Lemma sample_pagerank_hub_raises (m n : nat) (d : Q) :
  m <> 0%nat ->
  round4 ((1 - d) / inject_Z (Z.of_nat (S m))) == 0 ->
  round4 (d / inject_Z (Z.of_nat m)) == 0 ->
  sample_pagerank (hub_corpus m) d (S n) zero_tape = Raise ValueError.
Proof.
  intros Hm Hb Hk.
  apply (sample_pagerank_zero_weights (hub_corpus m) d n zero_tape
           (mkRng (fun _ => 0%Z) 1) (page_name 0) (map page_name (seq 1 m))).
  - apply (proj1 (hub_corpus_wf m)).
  - apply NoDup_page_names, seq_NoDup.
  - intros E. apply (f_equal (@List.length string)) in E.
    rewrite length_map, length_seq in E. simpl in E. contradiction.
  - apply hub_first_draw.
  - apply hub_links.
  - unfold len. rewrite length_hub_corpus. exact Hb.
  - unfold len. rewrite length_map, length_seq. exact Hk.
Qed.

Lemma hub_corpus_nonempty (m : nat) : hub_corpus m <> [].
Proof. discriminate. Qed.

#[local] Set Warnings "-abstract-large-number".

(** C9 (the code departs from the claim): on the hub of 10002 pages with
    damping 0.5 both probabilities of the hub, [0.5/10002] and
    [0.5/10001], round to 0.0 at four decimals, in exact arithmetic and in
    binary64 alike; the walk that starts on the hub hands [random.choices]
    weights that are all 0, and [sample_pagerank] raises [ValueError]
    where its docstring and the claim promise a table. *)
Theorem C9_sample_raises_on_zero_weights :
  corpus_wf (hub_corpus 10001) /\ hub_corpus 10001 <> [] /\
  0 < 1 # 2 /\ 1 # 2 < 1 /\ (1 <= 1)%nat /\
  sample_pagerank (hub_corpus 10001) (1 # 2) 1 zero_tape = Raise ValueError /\
  F64.round4 (F64.div (F64.sub F64.one d50_f) (F64.of_Z 10002)) = F64.zero /\
  F64.round4 (F64.div d50_f (F64.of_Z 10001)) = F64.zero.
Proof.
  split; [apply hub_corpus_wf|]. split; [apply hub_corpus_nonempty|].
  split; [reflexivity|]. split; [reflexivity|]. split; [lia|].
  split; [|split; vm_compute; reflexivity].
  apply sample_pagerank_hub_raises.
  - vm_compute. discriminate.
  - vm_compute. reflexivity.
  - vm_compute. reflexivity.
Qed.

(** X16.  On a well-formed corpus of at least one and fewer than 10000
    pages, for a damping factor in (0,1) and [n >= 1], whatever the random
    tape, [sample_pagerank] does not raise.  Its walk starts on a page of
    the corpus and draws [n] pages of the corpus, and the table it returns
    has one entry per corpus page, in corpus order, whose value is the
    number of times the walk drew the page divided by [n]; a page never
    drawn gets 0, every value is in [[0,1]] and the numbers of times add
    up to [n]. *)
Theorem sample_pagerank_returns_visit_frequencies
  (corpus : corpus_t) (d : Q) (n : nat) (g : rng) :
  corpus_wf corpus -> corpus <> [] -> len corpus < 10000 ->
  0 < d -> d < 1 -> (1 <= n)%nat ->
  exists current g1 samples g2,
    random_choice (keys corpus) g = Ok (current, g1) /\
    sample_loop n corpus d current [] g1 = Ok (samples, g2) /\
    List.length samples = n /\
    incl samples (keys corpus) /\
    sample_pagerank corpus d n g
    = Ok (map (fun p => (p, frequency samples n p)) (keys corpus)) /\
    (forall p, ~ In p samples -> frequency samples n p == 0) /\
    Forall (fun p => 0 <= frequency samples n p <= 1) (keys corpus) /\
    list_sum (map (count_occ string_dec samples) (keys corpus)) = n.
Proof.
  intros Hwf Hne Hsmall Hd0 Hd1 Hn.
  pose proof (weights_positive_small_corpus corpus d Hwf Hd0 Hd1 Hsmall) as Hw.
  destruct (sample_pagerank_frequencies corpus d n g Hwf Hne Hd1 Hn Hw)
    as (current & g1 & samples & g2 & Hc & Hloop & Hlen & Hincl & Hres).
  exists current, g1, samples, g2.
  repeat (split; [assumption|]). split; [|split].
  - intros p Hp. unfold frequency.
    apply (count_occ_not_In string_dec) in Hp. rewrite Hp. simpl.
    unfold Qdiv. ring.
  - apply Forall_forall. intros p _. subst n. apply frequency_bounds.
    intros ->. simpl in Hn. lia.
  - now rewrite (count_occ_total _ _ (proj1 Hwf) Hincl).
Qed.

Lemma sample_pagerank_returns_visit_frequencies_witness :
  corpus_wf ex_AB /\ ex_AB <> [] /\ len ex_AB < 10000 /\
  0 < d85 /\ d85 < 1 /\ (1 <= 5)%nat /\
  exists current g1 samples g2,
    random_choice (keys ex_AB) zero_tape = Ok (current, g1) /\
    sample_loop 5 ex_AB d85 current [] g1 = Ok (samples, g2) /\
    List.length samples = 5%nat /\
    incl samples (keys ex_AB) /\
    sample_pagerank ex_AB d85 5 zero_tape
    = Ok (map (fun p => (p, frequency samples 5 p)) (keys ex_AB)) /\
    (forall p, ~ In p samples -> frequency samples 5 p == 0) /\
    Forall (fun p => 0 <= frequency samples 5 p <= 1) (keys ex_AB) /\
    list_sum (map (count_occ string_dec samples) (keys ex_AB)) = 5%nat.
Proof.
  split; [wf_corpus|]. split; [discriminate|]. split; [reflexivity|].
  split; [reflexivity|]. split; [reflexivity|]. split; [lia|].
  apply sample_pagerank_returns_visit_frequencies;
    [wf_corpus | discriminate | reflexivity | reflexivity | reflexivity | lia].
Defined.

(** C3 (the code departs from the claim): on the one-page corpus
    [sample_pagerank] returns [{A.html: 1}] for every [n >= 1] and every
    random tape, and [iterate_pagerank] raises [UnboundLocalError] at the
    end of its first pass: the page has no backlink, nothing is updated
    and [old_rank] is read unbound. *)
Theorem C3_single_page_sample_ok_iterate_raises :
  (forall n g, exists v,
      sample_pagerank ex_single d85 (S n) g = Ok [("A.html", v)] /\ v == 1) /\
  (forall fuel,
      iterate_pagerank (S fuel) ex_single d85 = Some (Raise UnboundLocalError)).
Proof.
  split; [|intros fuel; reflexivity].
  intros n g.
  assert (Hwf : corpus_wf ex_single) by wf_corpus.
  destruct (sample_pagerank_frequencies ex_single d85 (S n) g Hwf)
    as (current & g1 & samples & g2 & _ & _ & Hlen & Hincl & Hres);
    [discriminate | reflexivity | lia | reflexivity |].
  rewrite Hres. cbn [keys ex_single map fst]. eexists. split; [reflexivity|].
  pose proof (count_occ_total (keys ex_single) samples (proj1 Hwf) Hincl) as Hc.
  cbn [keys ex_single map fst list_sum fold_right] in Hc.
  unfold frequency. rewrite Nat.add_0_r in Hc. rewrite Hc, Hlen.
  field. intros E. unfold Qeq in E. simpl in E. lia.
Qed.

(** ** crawl *)

Lemma for_each_opt_invariant {A S : Type} (body : S -> A -> option S)
  (I : S -> Prop) (xs : list A) :
  (forall s x, In x xs -> I s -> exists s', body s x = Some s' /\ I s') ->
  forall s, I s -> exists s', for_each_opt body xs s = Some s' /\ I s'.
Proof.
  induction xs as [|x xs IH]; intros Hbody s Hs; simpl.
  - eauto.
  - destruct (Hbody s x (or_introl eq_refl) Hs) as (s1 & -> & H1).
    apply IH; auto. intros s0 y Hy; apply Hbody; right; exact Hy.
Qed.

Lemma py_set_In (l : list string) (x : string) : In x (py_set l) <-> In x l.
Proof. apply nodup_In. Qed.

Lemma NoDup_py_set (l : list string) : NoDup (py_set l).
Proof. apply NoDup_nodup. Qed.

Lemma set_remove_In (s : list string) (x y : string) :
  In y (set_remove s x) <-> In y s /\ y <> x.
Proof.
  unfold set_remove. rewrite filter_In, negb_true_iff.
  destruct (String.eqb_spec y x); intuition congruence.
Qed.

Section CrawlFacts.
Variables (find_links : string -> list string) (fs : file_system)
  (directory : string) (dir : directory_t).
Hypothesis Hfs : fs directory = Some dir.

(** The links of a file after lines 39-40. *)
Let raw (f : string) : list string :=
  set_remove (py_set (find_links (contents_of dir f))) f.

(** An unreadable page makes the first loop fail. *)
Lemma crawl_extract_unreadable (f : string) :
  In f (listdir dir) -> endswith f ".html" = true -> read_file dir f = None ->
  crawl_extract find_links dir = None.
Proof.
  unfold crawl_extract. generalize (@nil (string * list string)).
  induction (listdir dir) as [|x xs IH]; intros acc Hin Hhtml Hread; [contradiction|].
  simpl. destruct Hin as [->|Hin].
  - now rewrite Hhtml, Hread.
  - destruct (negb (endswith x ".html")); [now apply IH|].
    destruct (read_file dir x); [now apply IH | reflexivity].
Qed.

(** When every page can be read, the first loop returns. *)
Lemma crawl_extract_readable :
  (forall f, In f (listdir dir) -> endswith f ".html" = true ->
             read_file dir f <> None) ->
  exists pages, crawl_extract find_links dir = Some pages.
Proof.
  intros Hread. unfold crawl_extract.
  destruct (for_each_opt_invariant
              (fun pages filename =>
                 if negb (endswith filename ".html") then Some pages
                 else
                   match read_file dir filename with
                   | None => None
                   | Some contents =>
                       let links := find_links contents in
                       Some (dict_set pages filename
                                      (set_remove (py_set links) filename))
                   end)
              (fun _ => True) (listdir dir)) with (s := @nil (string * list string))
    as (pages & Hp & _); eauto.
  intros s x Hx _. destruct (endswith x ".html") eqn:E; simpl; [|eauto].
  specialize (Hread x Hx E). destruct (read_file dir x); [eauto | congruence].
Qed.

(** The second loop never fails: its lookup is on a key. *)
Lemma crawl_prune_returns (pages : corpus_t) :
  exists pages', crawl_prune pages = Some pages' /\ keys pages' = keys pages.
Proof.
  unfold crawl_prune.
  apply (for_each_opt_invariant _ (fun s : corpus_t => keys s = keys pages));
    [|reflexivity].
  intros s x Hx Hs. rewrite <- Hs in Hx.
  destruct (proj1 (dict_get_In s x) Hx) as [links ->].
  eexists. split; [reflexivity|]. now rewrite keys_dict_set_present.
Qed.

(** The first loop in closed form, on distinct names. *)
Lemma crawl_extract_closed_form :
  NoDup (listdir dir) ->
  (forall f, In f (listdir dir) -> endswith f ".html" = true ->
             read_file dir f <> None) ->
  crawl_extract find_links dir
  = Some (map (fun f => (f, raw f)) (html_files dir)).
Proof.
  unfold crawl_extract, html_files.
  enough (H : forall l acc,
            NoDup l -> (forall f, In f l -> ~ In f (keys acc)) ->
            (forall f, In f l -> endswith f ".html" = true ->
                       read_file dir f <> None) ->
            for_each_opt
              (fun pages filename =>
                 if negb (endswith filename ".html") then Some pages
                 else
                   match read_file dir filename with
                   | None => None
                   | Some contents =>
                       let links := find_links contents in
                       Some (dict_set pages filename
                                      (set_remove (py_set links) filename))
                   end) l acc
            = Some (acc ++ map (fun f => (f, raw f))
                               (filter (fun f => endswith f ".html") l))).
  { intros Hnd Hread. apply (H (listdir dir) []); auto. }
  induction l as [|x l IH]; intros acc Hnd Hfresh Hread; simpl.
  - now rewrite app_nil_r.
  - inversion Hnd as [|? ? Hx Hnd']; subst.
    destruct (endswith x ".html") eqn:E; simpl.
    + pose proof (Hread x (or_introl eq_refl) E) as Hr.
      unfold raw at 1, contents_of.
      destruct (read_file dir x) as [c|]; [|congruence]. cbv zeta.
      rewrite dict_set_fresh by (apply Hfresh; now left).
      rewrite IH; [now rewrite <- app_assoc | exact Hnd' | |].
      * intros f Hf Hin. rewrite keys_app in Hin.
        apply in_app_or in Hin as [Hin|[<-|[]]]; [|contradiction].
        apply (Hfresh f); [now right | exact Hin].
      * intros f Hf. apply Hread. now right.
    + apply IH; [exact Hnd' | |].
      * intros f Hf. apply Hfresh. now right.
      * intros f Hf. apply Hread. now right.
Qed.

(** The second loop in closed form, on a dictionary tabulated on
    distinct keys. *)
Lemma crawl_prune_closed_form (hs : list string) (links : string -> list string) :
  NoDup hs ->
  crawl_prune (map (fun f => (f, links f)) hs)
  = Some (map (fun f => (f, py_set (filter (fun l => set_mem l hs) (links f)))) hs).
Proof.
  intros Hnd. unfold crawl_prune. rewrite keys_map_const.
  set (g := fun ls : list string => py_set (filter (fun l => set_mem l hs) ls)).
  enough (H : forall ps f,
            NoDup ps -> incl ps hs ->
            for_each_opt
              (fun pages filename =>
                 match dict_get pages filename with
                 | None => None
                 | Some ls =>
                     Some (dict_set pages filename
                                    (py_set (filter (dict_mem pages) ls)))
                 end) ps (map (fun x => (x, f x)) hs)
            = Some (map (fun x => (x, if in_dec string_dec x ps then g (f x) else f x))
                        hs)).
  { rewrite (H hs links Hnd (incl_refl hs)). f_equal. apply map_ext_in.
    intros x Hx. destruct (in_dec string_dec x hs); [reflexivity | contradiction]. }
  induction ps as [|p ps IH]; intros f Hndp Hincl.
  - reflexivity.
  - inversion Hndp as [|? ? Hp Hndp']; subst.
    assert (Hph : In p hs) by (apply Hincl; now left).
    cbn [for_each_opt]. rewrite dict_get_map.
    destruct (in_dec string_dec p hs) as [_|N]; [|contradiction].
    rewrite dict_set_tabulated by assumption.
    rewrite (IH _ Hndp' (fun y Hy => Hincl y (or_intror Hy))).
    f_equal. apply map_ext_in. intros x Hx. f_equal.
    destruct (in_dec string_dec x ps) as [I|N];
      destruct (in_dec string_dec x (p :: ps)) as [I'|N'].
    + destruct (String.eqb_spec x p) as [->|_]; [contradiction | reflexivity].
    + exfalso. apply N'. now right.
    + destruct I' as [<-|I']; [|contradiction].
      rewrite String.eqb_refl. unfold g. f_equal. apply filter_ext.
      intros l. unfold dict_mem. rewrite dict_get_map.
      destruct (in_dec string_dec l hs) as [I|N2].
      * symmetry. now apply set_mem_In.
      * symmetry. now apply set_mem_false.
    + destruct (String.eqb_spec x p) as [->|_]; [|reflexivity].
      exfalso. apply N'. now left.
Qed.

(** The whole of [crawl] in closed form. *)
Lemma crawl_closed_form :
  NoDup (listdir dir) ->
  (forall f, In f (listdir dir) -> endswith f ".html" = true ->
             read_file dir f <> None) ->
  crawl find_links fs directory
  = Some (map (fun f => (f, crawl_links find_links dir f)) (html_files dir)).
Proof.
  intros Hnd Hread. unfold crawl. rewrite Hfs.
  rewrite (crawl_extract_closed_form Hnd Hread).
  rewrite crawl_prune_closed_form; [reflexivity|].
  apply NoDup_filter. exact Hnd.
Qed.

(** If [crawl] returns, every page of the directory could be read. *)
Lemma crawl_Some_readable (pages : corpus_t) :
  crawl find_links fs directory = Some pages ->
  forall f, In f (listdir dir) -> endswith f ".html" = true ->
            read_file dir f <> None.
Proof.
  intros Hc f Hf Hhtml Hread. unfold crawl in Hc.
  now rewrite Hfs, (crawl_extract_unreadable f Hf Hhtml Hread) in Hc.
Qed.
End CrawlFacts.

Lemma crawl_tabulated
  (find_links : string -> list string) (fs : file_system) (directory : string)
  (dir : directory_t) (pages : corpus_t) :
  fs directory = Some dir ->
  NoDup (listdir dir) -> crawl find_links fs directory = Some pages ->
  pages = map (fun f => (f, crawl_links find_links dir f)) (html_files dir).
Proof.
  intros Hfs Hnd Hc.
  rewrite (crawl_closed_form find_links fs directory dir Hfs Hnd
             (crawl_Some_readable find_links fs directory dir Hfs pages Hc)) in Hc.
  now injection Hc as <-.
Qed.

Lemma crawl_tabulated_wf (find_links : string -> list string) (dir : directory_t) :
  NoDup (listdir dir) ->
  corpus_wf (map (fun f => (f, crawl_links find_links dir f)) (html_files dir)).
Proof.
  intros Hnd.
  assert (Hk : keys (map (fun f => (f, crawl_links find_links dir f)) (html_files dir))
               = html_files dir)
    by apply (keys_map_const (html_files dir) (crawl_links find_links dir)).
  split.
  - rewrite Hk. apply NoDup_filter. exact Hnd.
  - rewrite Hk. apply Forall_forall. intros kv Hkv.
    apply in_map_iff in Hkv as (f & <- & Hf). cbn [snd].
    split; [apply NoDup_py_set|].
    intros l Hl. unfold crawl_links in Hl.
    rewrite py_set_In, filter_In, set_mem_In in Hl. tauto.
Qed.

(** X1.  [crawl] fails exactly when [os.listdir] raises on the directory
    or a listed file whose name ends in [.html] cannot be opened or read;
    files with another ending are never opened, and the lookups of the
    second loop never fail. *)
Theorem crawl_fails_iff_unlistable_or_unreadable
  (find_links : string -> list string) (fs : file_system) (directory : string) :
  crawl find_links fs directory = None <->
  fs directory = None \/
  exists dir f,
    fs directory = Some dir /\
    In f (listdir dir) /\ endswith f ".html" = true /\ read_file dir f = None.
Proof.
  unfold crawl. destruct (fs directory) as [dir|] eqn:Hfs.
  - split.
    + intros Hc. right. exists dir.
      destruct (Exists_dec
                  (fun f => endswith f ".html" = true /\ read_file dir f = None)
                  (listdir dir)) as [Hex|Hno].
      { intros f. destruct (endswith f ".html"); [|right; intros [H _]; discriminate].
        destruct (read_file dir f); [right; intros [_ H]; discriminate | now left]. }
      * apply Exists_exists in Hex as (f & Hf & Hh & Hr). eauto.
      * exfalso. destruct (crawl_extract_readable find_links dir) as [pages Hp].
        { intros f Hf Hh Hr. apply Hno, Exists_exists. eauto. }
        rewrite Hp in Hc.
        destruct (crawl_prune_returns pages) as (pages' & Hq & _). congruence.
    + intros [Hnone|(dir' & f & Hd & Hf & Hh & Hr)]; [discriminate|].
      injection Hd as <-.
      now rewrite (crawl_extract_unreadable find_links dir f Hf Hh Hr).
  - split; [now left | reflexivity].
Qed.

(** X2.  On a directory with distinct names, the corpus that [crawl] returns
    has the names ending in [.html] as its pages, in listing order, and a
    page [f] links to [l] exactly when [l] is captured in the text of [f],
    is not [f] itself and is a page of the directory; no link appears
    twice. *)
Theorem crawl_pages_and_links
  (find_links : string -> list string) (fs : file_system) (directory : string)
  (dir : directory_t) (pages : corpus_t) :
  fs directory = Some dir ->
  NoDup (listdir dir) ->
  crawl find_links fs directory = Some pages ->
  keys pages = html_files dir /\
  forall f c,
    In f (html_files dir) -> read_file dir f = Some c ->
    exists links,
      dict_get pages f = Some links /\ NoDup links /\
      forall l, In l links <->
                In l (find_links c) /\ l <> f /\ In l (html_files dir).
Proof.
  intros Hfs Hnd Hc.
  rewrite (crawl_tabulated find_links fs directory dir pages Hfs Hnd Hc). split.
  - apply (keys_map_const (html_files dir) (crawl_links find_links dir)).
  - intros f c Hf Hr. exists (crawl_links find_links dir f).
    rewrite (dict_get_map (html_files dir) (crawl_links find_links dir)).
    destruct (in_dec string_dec f (html_files dir)); [|contradiction].
    split; [reflexivity|]. split; [apply NoDup_py_set|].
    intros l. unfold crawl_links, contents_of. rewrite Hr.
    rewrite py_set_In, filter_In, set_remove_In, py_set_In, set_mem_In. tauto.
Qed.

Lemma ex_dir_names : NoDup (listdir ex_dir).
Proof. simpl. nodup_strings. Qed.

Lemma crawl_pages_and_links_witness :
  fs_with ex_dir "corpus0" = Some ex_dir /\
  NoDup (listdir ex_dir) /\
  crawl ex_find_links (fs_with ex_dir) "corpus0"
  = Some [("1.html", ["2.html"]); ("2.html", ["1.html"])] /\
  keys [("1.html", ["2.html"]); ("2.html", ["1.html"])] = html_files ex_dir /\
  forall f c,
    In f (html_files ex_dir) -> read_file ex_dir f = Some c ->
    exists links,
      dict_get [("1.html", ["2.html"]); ("2.html", ["1.html"])] f = Some links /\
      NoDup links /\
      forall l, In l links <->
                In l (ex_find_links c) /\ l <> f /\ In l (html_files ex_dir).
Proof.
  split; [reflexivity|]. split; [apply ex_dir_names|]. split; [reflexivity|].
  apply (crawl_pages_and_links ex_find_links (fs_with ex_dir) "corpus0" ex_dir);
    [reflexivity | apply ex_dir_names | reflexivity].
Defined.

(** X3.  On a directory with distinct names, what [crawl] returns is a
    well-formed corpus: every page once, every link once and to a page of
    the corpus, and no page links to itself. *)
Theorem crawl_corpus_well_formed
  (find_links : string -> list string) (fs : file_system) (directory : string)
  (dir : directory_t) (pages : corpus_t) :
  fs directory = Some dir ->
  NoDup (listdir dir) ->
  crawl find_links fs directory = Some pages ->
  corpus_wf pages /\
  forall f links, dict_get pages f = Some links -> ~ In f links.
Proof.
  intros Hfs Hnd Hc.
  rewrite (crawl_tabulated find_links fs directory dir pages Hfs Hnd Hc).
  split; [now apply crawl_tabulated_wf|].
  intros f links Hget.
  rewrite (dict_get_map (html_files dir) (crawl_links find_links dir)) in Hget.
  destruct (in_dec string_dec f (html_files dir)); [|discriminate].
  injection Hget as <-. unfold crawl_links.
  rewrite py_set_In, filter_In, set_remove_In. tauto.
Qed.

Lemma crawl_corpus_well_formed_witness :
  fs_with ex_dir "corpus0" = Some ex_dir /\
  NoDup (listdir ex_dir) /\
  crawl ex_find_links (fs_with ex_dir) "corpus0"
  = Some [("1.html", ["2.html"]); ("2.html", ["1.html"])] /\
  corpus_wf [("1.html", ["2.html"]); ("2.html", ["1.html"])] /\
  forall f links,
    dict_get [("1.html", ["2.html"]); ("2.html", ["1.html"])] f = Some links ->
    ~ In f links.
Proof.
  split; [reflexivity|]. split; [apply ex_dir_names|]. split; [reflexivity|].
  apply (crawl_corpus_well_formed ex_find_links (fs_with ex_dir) "corpus0" ex_dir);
    [reflexivity | apply ex_dir_names | reflexivity].
Defined.

(** X4.  Lines 14-15 of [main]: on a directory with distinct names, at least
    one and fewer than 10000 pages, [sample_pagerank] applied to what
    [crawl] returns does not raise.  Its walk starts on a page of the
    directory and draws [n] pages of the directory, and the table it
    returns gives every page of the directory, in listing order, the
    number of times the walk drew it divided by [n]; these numbers of
    times add up to [n]. *)
Theorem sample_pagerank_after_crawl
  (find_links : string -> list string) (fs : file_system) (directory : string)
  (dir : directory_t) (pages : corpus_t) (d : Q) (n : nat) (g : rng) :
  fs directory = Some dir ->
  NoDup (listdir dir) ->
  crawl find_links fs directory = Some pages ->
  html_files dir <> [] -> len (html_files dir) < 10000 ->
  0 < d -> d < 1 -> (1 <= n)%nat ->
  exists current g1 samples g2,
    random_choice (html_files dir) g = Ok (current, g1) /\
    sample_loop n pages d current [] g1 = Ok (samples, g2) /\
    List.length samples = n /\
    incl samples (html_files dir) /\
    sample_pagerank pages d n g
    = Ok (map (fun p => (p, frequency samples n p)) (html_files dir)) /\
    list_sum (map (count_occ string_dec samples) (html_files dir)) = n.
Proof.
  intros Hfs Hnd Hc Hne Hsmall Hd0 Hd1 Hn.
  pose proof (crawl_tabulated find_links fs directory dir pages Hfs Hnd Hc) as Htab.
  assert (Hkeys : keys pages = html_files dir).
  { rewrite Htab.
    apply (keys_map_const (html_files dir) (crawl_links find_links dir)). }
  assert (Hwf : corpus_wf pages).
  { rewrite Htab. now apply crawl_tabulated_wf. }
  assert (Hlen : List.length pages = List.length (html_files dir)).
  { rewrite <- Hkeys. unfold keys. now rewrite length_map. }
  assert (Hw : weights_positive pages d = true).
  { apply weights_positive_small_corpus; auto.
    unfold len in *. now rewrite Hlen. }
  destruct (sample_pagerank_frequencies pages d n g Hwf)
    as (current & g1 & samples & g2 & Hcur & Hloop & Hl & Hincl & Hres); auto.
  { intros ->. apply Hne. now rewrite <- Hkeys. }
  exists current, g1, samples, g2. rewrite <- Hkeys.
  repeat (split; [assumption|]).
  now rewrite (count_occ_total _ _ (proj1 Hwf) Hincl).
Qed.

(** ** iterate_pagerank: exceptions, shape of the result, stop test *)

Lemma py_div_inv (x y q : Q) : py_div x y = Ok q -> ~ y == 0 /\ q = x / y.
Proof.
  unfold py_div. destruct (Qeq_bool y 0) eqn:E; [discriminate|].
  intros H; injection H as <-. split; [|reflexivity].
  intros Hy. apply Qeq_bool_iff in Hy. congruence.
Qed.

Lemma Forall_values_dict_set {V : Type} (P : V -> Prop) (d : dict V) (k : string) (v : V) :
  Forall P (values d) -> P v -> Forall P (values (dict_set d k v)).
Proof.
  induction d as [|[k' v'] d IH]; simpl; intros Hall Hv.
  - constructor; [exact Hv | constructor].
  - inversion Hall as [|? ? Hv' Hall']; subst.
    destruct (String.eqb k k'); simpl; constructor; auto.
Qed.

Lemma dict_get_values {V : Type} (d : dict V) (k : string) (v : V) :
  dict_get d k = Some v -> In v (values d).
Proof.
  intros H. apply dict_get_Some_In in H. unfold values.
  apply in_map_iff. exists (k, v). auto.
Qed.

(** A page is linked when the link set of some page contains it. *)
Lemma backlinks_of_nil_iff (corpus : corpus_t) (p : string) :
  backlinks_of corpus p = [] <->
  forall q links, dict_get corpus q = Some links -> ~ In p links.
Proof.
  split.
  - intros Hnil q links Hq Hp.
    assert (Hin : In q (backlinks_of corpus p)).
    { apply backlinks_of_In. split; [apply dict_get_In; eauto | eauto]. }
    rewrite Hnil in Hin. contradiction.
  - intros Hno. destruct (backlinks_of corpus p) as [|q bl] eqn:E; [reflexivity|].
    assert (Hin : In q (backlinks_of corpus p)) by (rewrite E; now left).
    apply backlinks_of_In in Hin as [_ (ls & Hls & Hp)].
    exfalso. exact (Hno q ls Hls Hp).
Qed.

Section LoopFacts.
Variables (corpus : corpus_t) (d : Q) (ip0 : dict Q) (cross : dict (list string)).
Hypothesis Hinit : init_tables corpus = Ok (ip0, cross).

(** Once bound, [old_rank] and [page_rank] stay bound. *)
Lemma update_page_keeps_bound (st st' : iter_state) (pages : string) :
  update_page corpus cross d st pages = Ok st' ->
  old_rank st <> None /\ page_rank st <> None ->
  old_rank st' <> None /\ page_rank st' <> None.
Proof.
  unfold update_page. intros H Hb.
  apply bind_Ok in H as (bl & _ & H).
  destruct (List.length bl =? 0)%nat.
  - apply bind_Ok in H as (_ & _ & H). now injection H as <-.
  - apply bind_Ok in H as (s & _ & H). apply bind_Ok in H as (e & _ & H).
    apply bind_Ok in H as (old & _ & H). injection H as <-.
    cbn. split; discriminate.
Qed.

Lemma for_each_update_keeps_bound (xs : list string) (st st' : iter_state) :
  for_each (update_page corpus cross d) xs st = Ok st' ->
  old_rank st <> None /\ page_rank st <> None ->
  old_rank st' <> None /\ page_rank st' <> None.
Proof.
  revert st; induction xs as [|x xs IH]; intros st H Hb; simpl in H.
  - now injection H as <-.
  - apply bind_Ok in H as (s1 & H1 & H). apply (IH s1 H).
    exact (update_page_keeps_bound _ _ _ H1 Hb).
Qed.

(** Processing a linked page binds both variables. *)
Lemma update_page_binds (st st' : iter_state) (pages : string) :
  In pages (keys corpus) -> backlinks_of corpus pages <> [] ->
  update_page corpus cross d st pages = Ok st' ->
  old_rank st' <> None /\ page_rank st' <> None.
Proof.
  intros Hp Hbl. unfold update_page.
  destruct (init_tables_get _ _ _ Hinit pages) as [Hin _].
  destruct (Hin Hp) as [_ Hc]. apply getitem_Ok in Hc. rewrite Hc. cbn [bind].
  destruct (backlinks_of corpus pages) as [|b bl]; [congruence|].
  cbn [List.length Nat.eqb]. intros H.
  apply bind_Ok in H as (s & _ & H). apply bind_Ok in H as (e & _ & H).
  apply bind_Ok in H as (old & _ & H). injection H as <-.
  cbn. split; discriminate.
Qed.

(** After a pass over a corpus with a linked page both variables are
    bound. *)
Lemma one_pass_binds (st st' : iter_state) (p : string) :
  pass_invariant corpus st ->
  In p (keys corpus) -> backlinks_of corpus p <> [] ->
  one_pass corpus cross d st = Ok st' ->
  old_rank st' <> None /\ page_rank st' <> None.
Proof.
  intros Hinv Hp Hbl. unfold one_pass.
  assert (Hpi : In p (keys (iterative_probablity st))) by now apply Hinv.
  apply in_split in Hpi as (l1 & l2 & ->).
  rewrite for_each_app. intros H.
  apply bind_Ok in H as (s1 & _ & H). cbn [for_each] in H.
  apply bind_Ok in H as (s2 & H2 & H).
  apply (for_each_update_keeps_bound _ _ _ H).
  exact (update_page_binds _ _ _ Hp Hbl H2).
Qed.

(** With a linked page in the corpus the loop never raises. *)
Lemma iterate_loop_linked_no_raise (fuel : nat) (st : iter_state) (p : string) (e : exn) :
  pass_invariant corpus st ->
  In p (keys corpus) -> backlinks_of corpus p <> [] ->
  iterate_loop fuel corpus cross d st <> Some (Raise e).
Proof.
  intros Hinv Hp Hbl. revert st Hinv.
  induction fuel as [|fuel IH]; intros st Hinv; simpl; [discriminate|].
  destruct (one_pass_Ok corpus d ip0 cross Hinit st Hinv) as (st' & Hpass & Hinv').
  rewrite Hpass.
  destruct (one_pass_binds st st' p Hinv Hp Hbl Hpass) as [Ho Hn].
  unfold converged.
  destruct (old_rank st') as [o|]; [|congruence].
  destruct (page_rank st') as [n|]; [|congruence].
  destruct (Qlt_bool (Qabs (o - n)) (1 # 10000)); [discriminate | now apply IH].
Qed.

(** Without a linked page a pass changes nothing. *)
Lemma one_pass_unlinked (st : iter_state) :
  pass_invariant corpus st ->
  (forall p, In p (keys corpus) -> backlinks_of corpus p = []) ->
  one_pass corpus cross d st = Ok st.
Proof.
  intros Hinv Hno. unfold one_pass.
  assert (Hsub : incl (keys (iterative_probablity st)) (keys corpus))
    by (intros k; apply Hinv).
  revert Hsub. generalize (keys (iterative_probablity st)). intros xs.
  induction xs as [|x xs IH]; intros Hsub; simpl; [reflexivity|].
  assert (Hx : In x (keys corpus)) by (apply Hsub; now left).
  destruct (update_page_Ok corpus d ip0 cross Hinit st x Hinv Hx)
    as (st' & -> & _ & Hst & _).
  rewrite (Hst (Hno x Hx)). cbn [bind].
  apply IH. intros k Hk. apply Hsub. now right.
Qed.

(** The sum of lines 164-166 is not negative when no rank is. *)
Lemma ranged_sum_of_nonneg (ip : dict Q) (bl : list string) (s : Q) :
  Forall (fun v => 0 <= v) (values ip) ->
  ranged_sum_of corpus ip bl = Ok s -> 0 <= s.
Proof.
  intros Hpos. unfold ranged_sum_of.
  assert (H0 : 0 <= 0) by lra. revert H0. generalize 0 at 2 3.
  induction bl as [|l bl IH]; intros acc Hacc H; simpl in H.
  - injection H as <-. exact Hacc.
  - apply bind_Ok in H as (acc' & Hbody & H). apply (IH acc'); [|exact H].
    apply bind_Ok in Hbody as (ls & _ & Hbody).
    apply bind_Ok in Hbody as (r & Hr & Hbody).
    apply bind_Ok in Hbody as (q & Hq & Hbody). injection Hbody as <-.
    apply py_div_inv in Hq as [Hnz ->].
    apply getitem_Ok, dict_get_values in Hr.
    rewrite Forall_forall in Hpos. specialize (Hpos r Hr).
    assert (0 <= r / len ls); [|lra].
    apply Qdiv_nonneg; [exact Hpos|].
    pose proof (len_nonneg ls). lra.
Qed.

(** A page keeps the keys of the table and ranks of at least
    [(1 - d)/N]. *)
Lemma update_page_shape (st st' : iter_state) (pages : string) :
  0 <= d -> d <= 1 ->
  update_page corpus cross d st pages = Ok st' ->
  Forall (fun v => (1 - d) / len corpus <= v) (values (iterative_probablity st)) ->
  keys (iterative_probablity st') = keys (iterative_probablity st) /\
  Forall (fun v => (1 - d) / len corpus <= v) (values (iterative_probablity st')).
Proof.
  intros Hd0 Hd1. unfold update_page. intros H Hall.
  apply bind_Ok in H as (bl & _ & H).
  destruct (List.length bl =? 0)%nat.
  - apply bind_Ok in H as (_ & _ & H). injection H as <-. auto.
  - apply bind_Ok in H as (s & Hs & H). apply bind_Ok in H as (e & He & H).
    apply bind_Ok in H as (old & Hold & H). injection H as <-.
    cbn [iterative_probablity]. apply py_div_inv in He as [Hnz ->].
    assert (HN : 0 < len corpus) by (pose proof (len_nonneg corpus); lra).
    assert (Hb : 0 <= (1 - d) / len corpus) by (apply Qdiv_nonneg; lra).
    split.
    + apply keys_dict_set_present. apply getitem_Ok in Hold.
      apply dict_get_In. eauto.
    + apply Forall_values_dict_set; [exact Hall|].
      assert (Hs0 : 0 <= s).
      { apply (ranged_sum_of_nonneg (iterative_probablity st) bl s); [|exact Hs].
        eapply Forall_impl; [|exact Hall]. cbv beta. intros v Hv. lra. }
      nra.
Qed.
End LoopFacts.

Lemma init_tables_returns (corpus : corpus_t) :
  exists ip cross, init_tables corpus = Ok (ip, cross).
Proof. rewrite init_tables_closed_form. cbv zeta. eauto. Qed.

(** X5.  Whatever the corpus (links that leave the corpus included), the
    damping factor and the number of passes, the only exception that
    leaves [iterate_pagerank] is the [UnboundLocalError] of line 171:
    no lookup fails and no division is by zero. *)
Theorem iterate_pagerank_raises_only_unbound_local
  (fuel : nat) (corpus : corpus_t) (d : Q) :
  match iterate_pagerank fuel corpus d with
  | Some (Raise e) => e = UnboundLocalError
  | _ => True
  end.
Proof.
  destruct (iterate_pagerank fuel corpus d) as [[ranks|e]|] eqn:E; auto.
  unfold iterate_pagerank in E.
  destruct (init_tables corpus) as [[ip cross]|e0] eqn:Hinit.
  - apply (iterate_loop_raises corpus d ip cross Hinit fuel _ e
             (pass_invariant_init corpus ip cross Hinit None None) E).
  - destruct (init_tables_returns corpus) as (ip & cross & H). congruence.
Qed.

(** X6.  [iterate_pagerank] raises exactly when no link set contains a page of
    the corpus: then no page is ever updated and line 171 reads
    [old_rank] unbound at the end of the first pass.  As soon as one page
    of the corpus is linked, no pass raises. *)
Theorem iterate_pagerank_raises_iff_no_page_linked
  (fuel : nat) (corpus : corpus_t) (d : Q) :
  (exists e, iterate_pagerank (S fuel) corpus d = Some (Raise e)) <->
  (forall p q links,
      In p (keys corpus) -> dict_get corpus q = Some links -> ~ In p links).
Proof.
  unfold iterate_pagerank.
  destruct (init_tables_returns corpus) as (ip & cross & Hinit). rewrite Hinit.
  pose proof (pass_invariant_init corpus ip cross Hinit None None) as Hinv.
  split.
  - intros [e He] p q links Hp Hq Hin.
    apply (iterate_loop_linked_no_raise corpus d ip cross Hinit (S fuel) _ p e Hinv Hp);
      [|exact He].
    intros Hnil. exact (proj1 (backlinks_of_nil_iff corpus p) Hnil q links Hq Hin).
  - intros Hno. exists UnboundLocalError. simpl.
    rewrite (one_pass_unlinked corpus d ip cross Hinit _ Hinv); [reflexivity|].
    intros p Hp. apply backlinks_of_nil_iff. intros q links. now apply Hno.
Qed.

(** X7.  A page that no link set contains is returned with the rank [1/N] it
    started with: no pass updates it. *)
Theorem iterate_pagerank_unlinked_page_keeps_rank
  (fuel : nat) (corpus : corpus_t) (d : Q) (ranks : dict Q) (p : string) :
  iterate_pagerank fuel corpus d = Some (Ok ranks) ->
  In p (keys corpus) ->
  (forall q links, dict_get corpus q = Some links -> ~ In p links) ->
  dict_get ranks p = Some (1 / len corpus).
Proof.
  intros H Hp Hno.
  apply (iterate_pagerank_keeps_initial_rank fuel corpus d ranks p H Hp).
  now apply backlinks_of_nil_iff.
Qed.

Lemma iterate_pagerank_unlinked_page_keeps_rank_witness :
  exists ranks,
    iterate_pagerank 2 ex_star d85 = Some (Ok ranks) /\
    In "A.html" (keys ex_star) /\
    (forall q links, dict_get ex_star q = Some links -> ~ In "A.html" links) /\
    dict_get ranks "A.html" = Some (1 / len ex_star).
Proof.
  eexists. split; [reflexivity|].
  assert (Hno : forall q links,
             dict_get ex_star q = Some links -> ~ In "A.html" links).
  { intros q links Hq Hin. apply dict_get_Some_In in Hq.
    simpl in Hq. destruct Hq as [E|[E|[E|[]]]]; injection E as <- <-;
      simpl in Hin; intuition discriminate. }
  split; [simpl; tauto|]. split; [exact Hno|].
  apply (iterate_pagerank_unlinked_page_keeps_rank 2 ex_star d85);
    [reflexivity | simpl; tauto | exact Hno].
Defined.

Lemma for_each_update_shape (corpus : corpus_t) (cross : dict (list string)) (d : Q)
  (xs : list string) (st st' : iter_state) :
  0 <= d -> d <= 1 ->
  for_each (update_page corpus cross d) xs st = Ok st' ->
  Forall (fun v => (1 - d) / len corpus <= v) (values (iterative_probablity st)) ->
  keys (iterative_probablity st') = keys (iterative_probablity st) /\
  Forall (fun v => (1 - d) / len corpus <= v) (values (iterative_probablity st')).
Proof.
  intros Hd0 Hd1. revert st. induction xs as [|x xs IH]; intros st H Hall; simpl in H.
  - injection H as <-. auto.
  - apply bind_Ok in H as (s1 & H1 & H).
    destruct (update_page_shape corpus d cross st s1 x Hd0 Hd1 H1 Hall) as [Hk Hv].
    destruct (IH s1 H Hv) as [Hk' Hv']. split; [congruence | exact Hv'].
Qed.

Lemma iterate_loop_shape (fuel : nat) (corpus : corpus_t) (cross : dict (list string))
  (d : Q) (st : iter_state) (ranks : dict Q) :
  0 <= d -> d <= 1 ->
  iterate_loop fuel corpus cross d st = Some (Ok ranks) ->
  Forall (fun v => (1 - d) / len corpus <= v) (values (iterative_probablity st)) ->
  keys ranks = keys (iterative_probablity st) /\
  Forall (fun v => (1 - d) / len corpus <= v) (values ranks).
Proof.
  intros Hd0 Hd1. revert st. induction fuel as [|fuel IH]; intros st H Hall; simpl in H;
    [discriminate|].
  destruct (one_pass corpus cross d st) as [st'|e] eqn:Hpass; [|discriminate].
  destruct (for_each_update_shape corpus cross d _ st st' Hd0 Hd1 Hpass Hall) as [Hk Hv].
  destruct (converged st') as [[|]|e]; [| |discriminate].
  - injection H as <-. auto.
  - destruct (IH st' H Hv) as [Hk' Hv']. split; [congruence | exact Hv'].
Qed.

(** X8.  For a damping factor in [[0,1]], the table that [iterate_pagerank]
    returns has one rank per page, in the order of the corpus, and every
    rank is at least [(1 - d)/N], so none is negative. *)
Theorem iterate_pagerank_table_shape
  (fuel : nat) (corpus : corpus_t) (d : Q) (ranks : dict Q) :
  NoDup (keys corpus) -> 0 <= d -> d <= 1 ->
  iterate_pagerank fuel corpus d = Some (Ok ranks) ->
  keys ranks = keys corpus /\
  Forall (fun v => (1 - d) / len corpus <= v) (values ranks) /\
  Forall (fun v => 0 <= v) (values ranks).
Proof.
  intros Hnd Hd0 Hd1. unfold iterate_pagerank.
  rewrite init_tables_closed_form. cbv zeta.
  rewrite (fold_dict_set_fresh (keys corpus) (fun _ => 1 / len corpus) [] Hnd)
    by (intros k _ []).
  cbn [app]. intros H.
  assert (Hbase : corpus <> [] -> 0 <= (1 - d) / len corpus).
  { intros Hne. apply Qdiv_nonneg; [lra | now apply len_pos]. }
  apply iterate_loop_shape in H; auto.
  - cbn [iterative_probablity] in H. destruct H as [Hk Hv].
    rewrite (keys_map_const (keys corpus) (fun _ => 1 / len corpus)) in Hk.
    split; [exact Hk|]. split; [exact Hv|].
    apply Forall_forall. intros v Hin.
    assert (Hne : corpus <> []).
    { intros ->. apply map_eq_nil in Hk. subst ranks. contradiction. }
    specialize (Hbase Hne). rewrite Forall_forall in Hv. specialize (Hv v Hin). lra.
  - cbn [iterative_probablity].
    rewrite (values_map_const (keys corpus) (fun _ => 1 / len corpus)).
    apply Forall_forall. intros v Hv. apply in_map_iff in Hv as (k & <- & Hk).
    assert (Hne : corpus <> []) by (intros ->; contradiction).
    pose proof (len_pos corpus Hne) as HN.
    assert (E : 1 / len corpus - (1 - d) / len corpus == d / len corpus)
      by (field; lra).
    pose proof (Qdiv_nonneg d (len corpus) Hd0 HN). lra.
Qed.

Lemma iterate_pagerank_table_shape_witness :
  exists ranks,
    NoDup (keys ex_cycle) /\ 0 <= d85 /\ d85 <= 1 /\
    iterate_pagerank 1 ex_cycle d85 = Some (Ok ranks) /\
    keys ranks = keys ex_cycle /\
    Forall (fun v => (1 - d85) / len ex_cycle <= v) (values ranks) /\
    Forall (fun v => 0 <= v) (values ranks).
Proof.
  eexists. split; [simpl; nodup_strings|].
  split; [unfold d85; lra|]. split; [unfold d85; lra|].
  split; [reflexivity|].
  apply (iterate_pagerank_table_shape 1 ex_cycle d85);
    [simpl; nodup_strings | unfold d85; lra | unfold d85; lra | reflexivity].
Defined.

(** X9.  When the last page of the table is a page of the corpus that some
    page links to, the test of line 171 after a pass compares the rank of
    that page before the pass with its rank after the pass. *)
Theorem stop_test_compares_last_page
  (corpus : corpus_t) (d : Q) (ip0 : dict Q) (cross : dict (list string))
  (st st' : iter_state) (ks : list string) (last_page : string) :
  init_tables corpus = Ok (ip0, cross) ->
  keys (iterative_probablity st) = ks ++ [last_page] ->
  ~ In last_page ks ->
  In last_page (keys corpus) ->
  (exists q links, dict_get corpus q = Some links /\ In last_page links) ->
  one_pass corpus cross d st = Ok st' ->
  exists old new,
    dict_get (iterative_probablity st) last_page = Some old /\
    dict_get (iterative_probablity st') last_page = Some new /\
    converged st' = Ok (Qlt_bool (Qabs (old - new)) (1 # 10000)).
Proof.
  intros Hinit Hkeys Hlast Hp (q & links & Hq & Hin). unfold one_pass.
  rewrite Hkeys, for_each_app.
  intros H. apply bind_Ok in H as (s1 & Hs1 & H). cbn [for_each] in H.
  apply bind_Ok in H as (s2 & Hs2 & H). injection H as <-.
  assert (Hsame : dict_get (iterative_probablity s1) last_page
                  = dict_get (iterative_probablity st) last_page).
  { clear Hkeys Hs2. revert st Hs1.
    induction ks as [|k ks IH]; intros st Hs1; simpl in Hs1.
    - now injection Hs1 as <-.
    - apply bind_Ok in Hs1 as (s0 & Hk & Hrest).
      rewrite (IH (fun H => Hlast (or_intror H)) _ Hrest).
      apply (update_page_other _ _ _ _ _ _ _ Hk). intros ->. apply Hlast. now left. }
  assert (Hbl : backlinks_of corpus last_page <> []).
  { intros Hnil. exact (proj1 (backlinks_of_nil_iff corpus last_page) Hnil q links Hq Hin). }
  destruct (update_page_linked corpus d ip0 cross Hinit s1 s2 last_page Hp Hbl Hs2)
    as (Hold & Hnew & Hsome).
  rewrite Hsame in Hold. unfold converged. rewrite Hold, Hnew.
  destruct (dict_get (iterative_probablity st) last_page) as [old|] eqn:Eo.
  - destruct (dict_get (iterative_probablity s2) last_page) as [new|] eqn:En.
    + exists old, new. repeat split; reflexivity.
    + rewrite Hnew in Hsome. congruence.
  - exfalso. apply dict_get_None in Eo. apply Eo. rewrite Hkeys.
    apply in_or_app. right. now left.
Qed.

Lemma stop_test_compares_last_page_witness :
  exists cross st',
    init_tables ex_cycle = Ok ([("A.html", 1 # 2); ("B.html", 1 # 2)], cross) /\
    keys (iterative_probablity
            (mkIter [("A.html", 1 # 2); ("B.html", 1 # 2)] None None))
    = ["A.html"] ++ ["B.html"] /\
    ~ In "B.html" ["A.html"] /\
    In "B.html" (keys ex_cycle) /\
    (exists q links, dict_get ex_cycle q = Some links /\ In "B.html" links) /\
    one_pass ex_cycle cross d85
             (mkIter [("A.html", 1 # 2); ("B.html", 1 # 2)] None None) = Ok st' /\
    exists old new,
      dict_get (iterative_probablity
                  (mkIter [("A.html", 1 # 2); ("B.html", 1 # 2)] None None))
               "B.html" = Some old /\
      dict_get (iterative_probablity st') "B.html" = Some new /\
      converged st' = Ok (Qlt_bool (Qabs (old - new)) (1 # 10000)).
Proof.
  do 2 eexists. split; [reflexivity|]. split; [reflexivity|].
  split; [intros [H|[]]; discriminate|]. split; [simpl; tauto|].
  split; [exists "A.html", ["B.html"]; split; [reflexivity | now left]|].
  split; [reflexivity|].
  eapply (stop_test_compares_last_page ex_cycle d85
            [("A.html", 1 # 2); ("B.html", 1 # 2)] _
            (mkIter [("A.html", 1 # 2); ("B.html", 1 # 2)] None None) _
            ["A.html"] "B.html");
    [reflexivity | reflexivity | intros [H|[]]; discriminate | simpl; tauto
     | exists "A.html", ["B.html"]; split; [reflexivity | now left]
     | reflexivity].
Defined.

(** X10.  The setup of lines 141-150 never fails.  It gives every page of the
    corpus the rank [1/N] and a list of backlinks that holds exactly the
    pages whose link set contains it, each once when the keys of the
    corpus are distinct. *)
Theorem init_tables_builds_reverse_index (corpus : corpus_t) :
  exists ip cross,
    init_tables corpus = Ok (ip, cross) /\
    forall p,
      In p (keys corpus) ->
      dict_get ip p = Some (1 / len corpus) /\
      exists bl,
        dict_get cross p = Some bl /\
        (forall q, In q bl <->
                   exists links, dict_get corpus q = Some links /\ In p links) /\
        (NoDup (keys corpus) -> NoDup bl).
Proof.
  destruct (init_tables_returns corpus) as (ip & cross & Hinit).
  exists ip, cross. split; [exact Hinit|]. intros p Hp.
  destruct (init_tables_get _ _ _ Hinit p) as [Hin _].
  destruct (Hin Hp) as [Hip Hc]. split; [exact Hip|].
  exists (backlinks_of corpus p). split; [exact Hc|]. split.
  - intros q. rewrite backlinks_of_In. split.
    + intros [_ H]. exact H.
    + intros (links & Hq & Hl). split; [apply dict_get_In; eauto | eauto].
  - intros Hnd. unfold backlinks_of. now apply NoDup_filter.
Qed.

(** ** sample_pagerank: edge cases *)

(** X11.  On the empty corpus [sample_pagerank] raises the [IndexError] of
    [random.choice]; with [n = 0] on a corpus that is not empty it draws
    the first page and then raises [ZeroDivisionError] at line 120. *)
Theorem sample_pagerank_edge_cases
  (d : Q) (n : nat) (g : rng) (kv : string * list string) (corpus : corpus_t) :
  sample_pagerank [] d n g = Raise IndexError /\
  sample_pagerank (kv :: corpus) d 0 g = Raise ZeroDivisionError.
Proof.
  split; [reflexivity|].
  unfold sample_pagerank.
  destruct (random_choice_Ok (keys (kv :: corpus)) g) as (cur & g1 & Hc & _);
    [discriminate|].
  rewrite Hc. cbn [bind sample_loop]. unfold count_samples. cbn [for_each bind].
  set (sd := fold_left (fun sd pages => dict_set sd pages 0%Z) (keys (kv :: corpus)) []).
  assert (Hget : dict_get sd (fst kv) = Some 0%Z).
  { unfold sd. rewrite (dict_get_fold_set _ (fun _ => 0%Z)).
    cbn [keys map existsb]. now rewrite String.eqb_refl. }
  destruct sd as [|[k c] sd']; [discriminate|]. reflexivity.
Qed.

(** ** transition_model: weights fit for the weighted draw *)

Lemma transition_model_keys (corpus : corpus_t) (page : string) (d : Q)
  (dist : dict Q) :
  corpus_wf corpus -> transition_model corpus page d = Ok dist ->
  Permutation (keys dist) (keys corpus).
Proof.
  intros Hwf H.
  destruct (dict_get corpus page) as [links|] eqn:Hget.
  - destruct (corpus_wf_links _ _ _ Hwf Hget) as [Hndl Hincl].
    destruct links as [|l0 ls].
    + rewrite (transition_linkless corpus page d (proj1 Hwf) Hget) in H.
      injection H as <-.
      now rewrite (keys_map_const (keys corpus)
                     (fun _ => d / len corpus + (1 - d) / len corpus)).
    + assert (Hne : l0 :: ls <> []) by discriminate.
      revert Hne Hndl Hincl Hget. generalize (l0 :: ls). intros L Hne Hndl Hincl Hget.
      rewrite (transition_linked corpus page d L (proj1 Hwf) Hndl Hget Hne) in H.
      injection H as <-.
      rewrite keys_app,
        (keys_map_const L
           (fun _ => round4 ((1 - d) / len corpus) + round4 (d / len L))),
        (keys_map_const _ (fun _ => round4 ((1 - d) / len corpus))).
      apply linked_keys_permutation; [apply Hwf | exact Hndl | exact Hincl].
  - unfold transition_model, getitem in H. rewrite Hget in H. discriminate.
Qed.

(** X12.  On a well-formed corpus of fewer than 10000 pages, for a damping
    factor in (0,1) and a page of the corpus, [transition_model] returns
    one weight per page of the corpus, none negative, with a positive
    total: [random.choices] accepts them. *)
Theorem transition_model_weights_valid
  (corpus : corpus_t) (page : string) (d : Q) :
  corpus_wf corpus -> len corpus < 10000 -> 0 < d -> d < 1 ->
  In page (keys corpus) ->
  exists dist,
    transition_model corpus page d = Ok dist /\
    Permutation (keys dist) (keys corpus) /\
    Forall (fun w => 0 <= w) (values dist) /\
    0 < Qsum (values dist).
Proof.
  intros Hwf HN Hd0 Hd1 Hp.
  pose proof (weights_positive_small_corpus corpus d Hwf Hd0 Hd1 HN) as Hw.
  destruct (transition_model_weights corpus page d Hwf Hd1 Hw Hp)
    as (dist & w0 & ws & Hdist & _ & Hvals & Hw0 & Hws).
  exists dist. split; [exact Hdist|].
  split; [exact (transition_model_keys corpus page d dist Hwf Hdist)|].
  rewrite Hvals.
  assert (Hsum : 0 <= Qsum ws).
  { clear - Hws. induction Hws as [|w ws Hw _ IH]; simpl; lra. }
  split; [constructor; [lra | exact Hws] | simpl; lra].
Qed.

Lemma transition_model_weights_valid_witness :
  corpus_wf ex_seven /\ len ex_seven < 10000 /\ 0 < d85 /\ d85 < 1 /\
  In "A.html" (keys ex_seven) /\
  exists dist,
    transition_model ex_seven "A.html" d85 = Ok dist /\
    Permutation (keys dist) (keys ex_seven) /\
    Forall (fun w => 0 <= w) (values dist) /\
    0 < Qsum (values dist).
Proof.
  split; [wf_corpus|]. split; [reflexivity|]. split; [reflexivity|].
  split; [reflexivity|]. split; [simpl; tauto|].
  apply transition_model_weights_valid;
    [wf_corpus | reflexivity | reflexivity | reflexivity | simpl; tauto].
Defined.

Lemma sample_pagerank_after_crawl_witness :
  fs_with ex_dir "corpus0" = Some ex_dir /\
  NoDup (listdir ex_dir) /\
  crawl ex_find_links (fs_with ex_dir) "corpus0"
  = Some [("1.html", ["2.html"]); ("2.html", ["1.html"])] /\
  html_files ex_dir <> [] /\ len (html_files ex_dir) < 10000 /\
  0 < d85 /\ d85 < 1 /\ (1 <= 4)%nat /\
  exists current g1 samples g2,
    random_choice (html_files ex_dir) zero_tape = Ok (current, g1) /\
    sample_loop 4 [("1.html", ["2.html"]); ("2.html", ["1.html"])] d85
                current [] g1
    = Ok (samples, g2) /\
    List.length samples = 4%nat /\
    incl samples (html_files ex_dir) /\
    sample_pagerank [("1.html", ["2.html"]); ("2.html", ["1.html"])] d85 4 zero_tape
    = Ok (map (fun p => (p, frequency samples 4 p)) (html_files ex_dir)) /\
    list_sum (map (count_occ string_dec samples) (html_files ex_dir)) = 4%nat.
Proof.
  split; [reflexivity|].
  split; [apply ex_dir_names|]. split; [reflexivity|]. split; [discriminate|].
  split; [reflexivity|]. split; [reflexivity|]. split; [reflexivity|].
  split; [lia|].
  apply (sample_pagerank_after_crawl ex_find_links (fs_with ex_dir) "corpus0" ex_dir);
    [reflexivity | apply ex_dir_names | reflexivity | discriminate | reflexivity
     | reflexivity | reflexivity | lia].
Defined.

(** ** main *)

Lemma insert_sorted_perm (x : string) (l : list string) :
  Permutation (insert_sorted x l) (x :: l).
Proof.
  induction l as [|y l IH]; simpl; [reflexivity|].
  destruct (String.leb x y); [reflexivity|].
  rewrite IH. apply perm_swap.
Qed.

Lemma sorted_perm (l : list string) : Permutation (sorted l) l.
Proof.
  induction l as [|x l IH]; simpl; [reflexivity|].
  rewrite insert_sorted_perm. now constructor.
Qed.

Lemma insert_sorted_Sorted (x : string) (l : list string) :
  Sorted (fun a b => String.leb a b = true) l ->
  Sorted (fun a b => String.leb a b = true) (insert_sorted x l).
Proof.
  induction l as [|y l IH]; intros Hs; simpl.
  - repeat constructor.
  - destruct (String.leb x y) eqn:E.
    + constructor; [exact Hs | constructor; exact E].
    + inversion Hs as [|? ? Hs' Hhd]; subst.
      constructor; [now apply IH|].
      assert (Hyx : String.leb y x = true).
      { destruct (String.leb_total x y); congruence. }
      destruct l as [|z l]; simpl.
      * constructor. exact Hyx.
      * destruct (String.leb x z); constructor; [exact Hyx|].
        now inversion Hhd.
Qed.

Lemma sorted_Sorted (l : list string) :
  Sorted (fun a b => String.leb a b = true) (sorted l).
Proof.
  induction l as [|x l IH]; simpl; [constructor | now apply insert_sorted_Sorted].
Qed.

(** The loop of lines 17-18 never fails: it looks up keys of the table. *)
Lemma report_closed_form (ranks : dict Q) :
  report ranks
  = Ok (map (fun p => report_line p (rank_of ranks p)) (sorted (keys ranks))).
Proof.
  unfold report.
  assert (Hsub : incl (sorted (keys ranks)) (keys ranks)).
  { intros p Hp. eapply Permutation_in; [apply sorted_perm | exact Hp]. }
  revert Hsub. generalize (sorted (keys ranks)). intros xs.
  enough (H : forall acc, incl xs (keys ranks) ->
            for_each (fun out page =>
                        rank <- getitem ranks page ;;
                        Ok (out ++ [report_line page rank])) xs acc
            = Ok (acc ++ map (fun p => report_line p (rank_of ranks p)) xs)).
  { intros Hsub. apply (H [] Hsub). }
  induction xs as [|x xs IH]; intros acc Hsub; simpl.
  - now rewrite app_nil_r.
  - assert (Hx : In x (keys ranks)) by (apply Hsub; now left).
    apply dict_get_In in Hx as [v Hv]. unfold getitem at 1, rank_of at 1.
    rewrite Hv. cbn [bind].
    rewrite IH by (intros y Hy; apply Hsub; now right).
    now rewrite <- app_assoc.
Qed.

Lemma rank_of_tabulated (ks : list string) (f : string -> Q) (p : string) :
  In p ks -> rank_of (map (fun k => (k, f k)) ks) p = f p.
Proof.
  intros Hp. unfold rank_of. rewrite dict_get_map.
  destruct (in_dec string_dec p ks); [reflexivity | contradiction].
Qed.

(** The sampling report of [main] for a table of frequencies. *)
Lemma report_frequencies (ks samples : list string) (n : nat) :
  report (map (fun p => (p, frequency samples n p)) ks)
  = Ok (map (fun p => report_line p (frequency samples n p)) (sorted ks)).
Proof.
  rewrite report_closed_form, (keys_map_const ks (frequency samples n)).
  f_equal. apply map_ext_in. intros p Hp. f_equal.
  apply rank_of_tabulated. eapply Permutation_in; [apply sorted_perm | exact Hp].
Qed.

Lemma iterate_pagerank_unlinked_raises (fuel : nat) (corpus : corpus_t) (d : Q) :
  (forall p q links,
      In p (keys corpus) -> dict_get corpus q = Some links -> ~ In p links) ->
  iterate_pagerank (S fuel) corpus d = Some (Raise UnboundLocalError).
Proof.
  intros Hno. unfold iterate_pagerank.
  destruct (init_tables_returns corpus) as (ip & cross & Hinit). rewrite Hinit.
  pose proof (pass_invariant_init corpus ip cross Hinit None None) as Hinv.
  simpl. rewrite (one_pass_unlinked corpus d ip cross Hinit _ Hinv); [reflexivity|].
  intros p Hp. apply backlinks_of_nil_iff. intros q links. now apply Hno.
Qed.

Lemma iterate_pagerank_keys
  (fuel : nat) (corpus : corpus_t) (d : Q) (ranks : dict Q) :
  NoDup (keys corpus) -> 0 <= d -> d <= 1 ->
  iterate_pagerank fuel corpus d = Some (Ok ranks) ->
  keys ranks = keys corpus.
Proof.
  intros Hnd Hd0 Hd1. unfold iterate_pagerank.
  destruct (init_tables corpus) as [[ip cross]|e] eqn:Hinit; [|discriminate].
  intros H.
  assert (Hip : ip = map (fun k => (k, 1 / len corpus)) (keys corpus)).
  { rewrite init_tables_closed_form in Hinit. cbv zeta in Hinit.
    injection Hinit as <- _.
    apply (fold_dict_set_fresh (keys corpus) (fun _ => 1 / len corpus) [] Hnd).
    intros k _ []. }
  apply iterate_loop_shape in H; auto.
  - destruct H as [Hk _]. cbn [iterative_probablity] in Hk. rewrite Hk, Hip.
    apply (keys_map_const (keys corpus) (fun _ => 1 / len corpus)).
  - cbn [iterative_probablity]. rewrite Hip.
    rewrite (values_map_const (keys corpus) (fun _ => 1 / len corpus)).
    apply Forall_forall. intros v Hv. apply in_map_iff in Hv as (k & <- & Hk).
    assert (Hne : corpus <> []) by (intros ->; contradiction).
    pose proof (len_pos corpus Hne) as HN.
    assert (E : 1 / len corpus - (1 - d) / len corpus == d / len corpus)
      by (field; lra).
    pose proof (Qdiv_nonneg d (len corpus) Hd0 HN). lra.
Qed.

Lemma DAMPING_range : 0 < DAMPING /\ DAMPING < 1.
Proof. split; reflexivity. Qed.

(** X13.  A run of [main] that gets through both estimators: on a directory
    with distinct names, at least one and fewer than 10000 pages, when the
    loop of [iterate_pagerank] stops with a table, [main] prints the
    header of the sampling report, one line per page with the number of
    times the walk of [sample_pagerank] drew the page, divided by 10000,
    the header of the iteration report and one line per page with its
    rank, and returns.  In both reports the pages come in increasing
    order of their names, each once. *)
Theorem main_prints_both_reports
  (find_links : string -> list string) (prog path : string)
  (fs : file_system) (dir : directory_t) (corpus : corpus_t)
  (g : rng) (fuel : nat) (ranks : dict Q) :
  fs path = Some dir ->
  NoDup (listdir dir) ->
  crawl find_links fs path = Some corpus ->
  html_files dir <> [] -> len (html_files dir) < 10000 ->
  iterate_pagerank fuel corpus DAMPING = Some (Ok ranks) ->
  exists current g1 samples g2,
    random_choice (keys corpus) g = Ok (current, g1) /\
    sample_loop SAMPLES corpus DAMPING current [] g1 = Ok (samples, g2) /\
    List.length samples = SAMPLES /\
    main find_links [prog; path] fs g fuel
    = (("PageRank Results from Sampling (n = 10000)"
        :: map (fun p => report_line p (frequency samples SAMPLES p))
               (sorted (html_files dir)))
       ++ "PageRank Results from Iteration"
          :: map (fun p => report_line p (rank_of ranks p))
                 (sorted (html_files dir)),
       Returned) /\
    Sorted (fun a b => String.leb a b = true) (sorted (html_files dir)) /\
    Permutation (sorted (html_files dir)) (html_files dir).
Proof.
  intros Hfs Hnd Hc Hne Hsmall Hit.
  pose proof (crawl_tabulated find_links fs path dir corpus Hfs Hnd Hc) as Htab.
  assert (Hkeys : keys corpus = html_files dir).
  { rewrite Htab.
    apply (keys_map_const (html_files dir) (crawl_links find_links dir)). }
  assert (Hwf : corpus_wf corpus).
  { rewrite Htab. now apply crawl_tabulated_wf. }
  assert (Hlen : len corpus = len (html_files dir)).
  { apply len_eq_length. rewrite <- Hkeys. unfold keys. now rewrite length_map. }
  destruct DAMPING_range as [Hd0 Hd1].
  assert (Hw : weights_positive corpus DAMPING = true).
  { apply weights_positive_small_corpus; auto. now rewrite Hlen. }
  destruct (sample_pagerank_frequencies corpus DAMPING SAMPLES g Hwf)
    as (current & g1 & samples & g2 & Hcur & Hloop & Hl & _ & Hres); auto.
  { intros ->. apply Hne. now rewrite <- Hkeys. }
  { unfold SAMPLES. lia. }
  exists current, g1, samples, g2.
  split; [exact Hcur|]. split; [exact Hloop|]. split; [exact Hl|]. split.
  - unfold main. rewrite Hc, Hres, report_frequencies, Hit, report_closed_form.
    rewrite (iterate_pagerank_keys fuel corpus DAMPING ranks (proj1 Hwf))
      by (lra || exact Hit).
    rewrite Hkeys. reflexivity.
  - split; [apply sorted_Sorted | apply sorted_perm].
Qed.

(** X14.  A run of [main] on pages without links among them: on a directory
    with distinct names and at least one page, when no page links to a
    page of the directory, [main] prints the sampling report, one line per
    page in increasing order of the names, and then ends with the
    [UnboundLocalError] of [iterate_pagerank]: the iteration report is
    never printed. *)
Theorem main_stops_after_sampling_report
  (find_links : string -> list string) (prog path : string)
  (fs : file_system) (dir : directory_t) (corpus : corpus_t)
  (g : rng) (fuel : nat) :
  fs path = Some dir ->
  NoDup (listdir dir) ->
  crawl find_links fs path = Some corpus ->
  html_files dir <> [] ->
  Forall (fun kv => snd kv = []) corpus ->
  exists current g1 samples g2,
    random_choice (keys corpus) g = Ok (current, g1) /\
    sample_loop SAMPLES corpus DAMPING current [] g1 = Ok (samples, g2) /\
    List.length samples = SAMPLES /\
    main find_links [prog; path] fs g (S fuel)
    = ("PageRank Results from Sampling (n = 10000)"
       :: map (fun p => report_line p (frequency samples SAMPLES p))
              (sorted (html_files dir)),
       Uncaught UnboundLocalError).
Proof.
  intros Hfs Hnd Hc Hne Hall.
  pose proof (crawl_tabulated find_links fs path dir corpus Hfs Hnd Hc) as Htab.
  assert (Hkeys : keys corpus = html_files dir).
  { rewrite Htab.
    apply (keys_map_const (html_files dir) (crawl_links find_links dir)). }
  assert (Hwf : corpus_wf corpus).
  { rewrite Htab. now apply crawl_tabulated_wf. }
  destruct DAMPING_range as [Hd0 Hd1].
  assert (Hw : weights_positive corpus DAMPING = true).
  { unfold weights_positive. apply forallb_forall. intros kv Hkv.
    rewrite Forall_forall in Hall. now rewrite (Hall kv Hkv). }
  destruct (sample_pagerank_frequencies corpus DAMPING SAMPLES g Hwf)
    as (current & g1 & samples & g2 & Hcur & Hloop & Hl & _ & Hres); auto.
  { intros ->. apply Hne. now rewrite <- Hkeys. }
  { unfold SAMPLES. lia. }
  exists current, g1, samples, g2.
  split; [exact Hcur|]. split; [exact Hloop|]. split; [exact Hl|].
  unfold main. rewrite Hc, Hres, report_frequencies.
  rewrite iterate_pagerank_unlinked_raises.
  - rewrite Hkeys. reflexivity.
  - intros p q links _ Hq Hin. apply dict_get_Some_In in Hq.
    rewrite Forall_forall in Hall. apply Hall in Hq. cbn [snd] in Hq.
    subst links. contradiction.
Qed.

Lemma main_prints_both_reports_witness :
  exists ranks,
    fs_with ex_dir "corpus0" = Some ex_dir /\
    NoDup (listdir ex_dir) /\
    crawl ex_find_links (fs_with ex_dir) "corpus0"
    = Some [("1.html", ["2.html"]); ("2.html", ["1.html"])] /\
    html_files ex_dir <> [] /\ len (html_files ex_dir) < 10000 /\
    iterate_pagerank 1 [("1.html", ["2.html"]); ("2.html", ["1.html"])] DAMPING
    = Some (Ok ranks) /\
    exists current g1 samples g2,
      random_choice (keys [("1.html", ["2.html"]); ("2.html", ["1.html"])]) zero_tape
      = Ok (current, g1) /\
      sample_loop SAMPLES [("1.html", ["2.html"]); ("2.html", ["1.html"])] DAMPING
                  current [] g1
      = Ok (samples, g2) /\
      List.length samples = SAMPLES /\
      main ex_find_links ["pagerank.py"; "corpus0"] (fs_with ex_dir) zero_tape 1
      = (("PageRank Results from Sampling (n = 10000)"
          :: map (fun p => report_line p (frequency samples SAMPLES p))
                 (sorted (html_files ex_dir)))
         ++ "PageRank Results from Iteration"
            :: map (fun p => report_line p (rank_of ranks p))
                   (sorted (html_files ex_dir)),
         Returned) /\
      Sorted (fun a b => String.leb a b = true) (sorted (html_files ex_dir)) /\
      Permutation (sorted (html_files ex_dir)) (html_files ex_dir).
Proof.
  eexists. split; [reflexivity|]. split; [apply ex_dir_names|].
  split; [reflexivity|]. split; [discriminate|]. split; [reflexivity|].
  split; [reflexivity|].
  apply (main_prints_both_reports ex_find_links "pagerank.py" "corpus0"
           (fs_with ex_dir) ex_dir
           [("1.html", ["2.html"]); ("2.html", ["1.html"])] zero_tape 1);
    [reflexivity | apply ex_dir_names | reflexivity | discriminate
     | reflexivity | reflexivity].
Defined.

Lemma main_stops_after_sampling_report_witness :
  fs_with ex_dir_unlinked "corpus0" = Some ex_dir_unlinked /\
  NoDup (listdir ex_dir_unlinked) /\
  crawl ex_find_links (fs_with ex_dir_unlinked) "corpus0"
  = Some [("b.html", []); ("a.html", [])] /\
  html_files ex_dir_unlinked <> [] /\
  Forall (fun kv : string * list string => snd kv = [])
         [("b.html", []); ("a.html", [])] /\
  exists current g1 samples g2,
    random_choice (keys [("b.html", @nil string); ("a.html", [])]) zero_tape
    = Ok (current, g1) /\
    sample_loop SAMPLES [("b.html", []); ("a.html", [])] DAMPING current [] g1
    = Ok (samples, g2) /\
    List.length samples = SAMPLES /\
    main ex_find_links ["pagerank.py"; "corpus0"]
         (fs_with ex_dir_unlinked) zero_tape 1
    = ("PageRank Results from Sampling (n = 10000)"
       :: map (fun p => report_line p (frequency samples SAMPLES p))
              (sorted (html_files ex_dir_unlinked)),
       Uncaught UnboundLocalError).
Proof.
  assert (Hnd : NoDup (listdir ex_dir_unlinked)) by (simpl; nodup_strings).
  split; [reflexivity|]. split; [exact Hnd|]. split; [reflexivity|].
  split; [discriminate|]. split; [repeat constructor|].
  apply (main_stops_after_sampling_report ex_find_links "pagerank.py" "corpus0"
           (fs_with ex_dir_unlinked) ex_dir_unlinked
           [("b.html", []); ("a.html", [])] zero_tape 0);
    [reflexivity | exact Hnd | reflexivity | discriminate | repeat constructor].
Defined.

(** ** iterate_pagerank: the value a linked page is given *)

Lemma ranged_sum_of_closed_form (corpus : corpus_t) (ip : dict Q)
  (bl : list string) (s : Q) :
  ranged_sum_of corpus ip bl = Ok s ->
  s == Qsum (map (fun q => rank_of ip q / len (outlinks corpus q)) bl).
Proof.
  unfold ranged_sum_of.
  enough (H : forall acc,
            for_each (fun ranged_sum links =>
                        ls <- getitem corpus links ;;
                        r <- getitem ip links ;;
                        q <- py_div r (len ls) ;;
                        Ok (ranged_sum + q)) bl acc = Ok s ->
            s == acc + Qsum (map (fun q => rank_of ip q / len (outlinks corpus q)) bl)).
  { intros Hs. rewrite (H 0 Hs). lra. }
  induction bl as [|l bl IH]; intros acc H; simpl in H.
  - injection H as <-. simpl. lra.
  - apply bind_Ok in H as (acc' & Hbody & H). rewrite (IH acc' H).
    apply bind_Ok in Hbody as (ls & Hls & Hbody).
    apply bind_Ok in Hbody as (r & Hr & Hbody).
    apply bind_Ok in Hbody as (q & Hq & Hbody). injection Hbody as <-.
    apply py_div_inv in Hq as [_ ->].
    apply getitem_Ok in Hls, Hr. cbn [map Qsum].
    unfold rank_of at 2, outlinks at 2. rewrite Hls, Hr. lra.
Qed.

(** X15.  The update of a page [p] that some page links to: [p] is given
    [(1 - d)/N + d * sum of rank[q] / len(corpus[q])] over the pages [q]
    whose link set contains [p], with the ranks the table holds at that
    moment (pages earlier in the pass already have their new rank), and
    the rank of no other page changes.  Pages without links are no
    backlink of any page and give nothing to the sum. *)
Theorem update_page_assigns_backlink_sum
  (corpus : corpus_t) (d : Q) (ip0 : dict Q) (cross : dict (list string))
  (st st' : iter_state) (p : string) :
  init_tables corpus = Ok (ip0, cross) ->
  In p (keys corpus) ->
  (exists q links, dict_get corpus q = Some links /\ In p links) ->
  update_page corpus cross d st p = Ok st' ->
  exists bl v,
    dict_get cross p = Some bl /\
    (forall q, In q bl <-> exists links, dict_get corpus q = Some links /\ In p links) /\
    dict_get (iterative_probablity st') p = Some v /\
    v == (1 - d) / len corpus
         + d * Qsum (map (fun q => rank_of (iterative_probablity st) q
                                   / len (outlinks corpus q)) bl) /\
    forall q, q <> p ->
              dict_get (iterative_probablity st') q
              = dict_get (iterative_probablity st) q.
Proof.
  intros Hinit Hp (q0 & links0 & Hq0 & Hin0) Hup.
  destruct (init_tables_get _ _ _ Hinit p) as [Hin _].
  destruct (Hin Hp) as [_ Hc].
  exists (backlinks_of corpus p).
  assert (Hbl : backlinks_of corpus p <> []).
  { intros Hnil. exact (proj1 (backlinks_of_nil_iff corpus p) Hnil q0 links0 Hq0 Hin0). }
  pose proof (fun q => update_page_other corpus d cross st st' p q Hup) as Hother.
  unfold update_page in Hup. apply getitem_Ok in Hc as Hg. rewrite Hg in Hup.
  cbn [bind] in Hup.
  destruct (backlinks_of corpus p) as [|b bl] eqn:Ebl; [congruence|].
  cbn [List.length Nat.eqb] in Hup.
  apply bind_Ok in Hup as (s & Hs & Hup). apply bind_Ok in Hup as (e & He & Hup).
  apply bind_Ok in Hup as (old & _ & Hup). injection Hup as <-.
  apply py_div_inv in He as [_ ->].
  eexists. split; [exact Hc|]. split.
  { intros q. rewrite <- Ebl, backlinks_of_In. split.
    - intros [_ H]. exact H.
    - intros (links & Hq & Hl). split; [apply dict_get_In; eauto | eauto]. }
  cbn [iterative_probablity]. split; [apply dict_get_set_same|]. split.
  - rewrite (ranged_sum_of_closed_form _ _ _ _ Hs). reflexivity.
  - intros q Hq. apply Hother. congruence.
Qed.

Lemma update_page_assigns_backlink_sum_witness :
  exists cross st',
    init_tables ex_AB = Ok ([("A.html", 1 # 2); ("B.html", 1 # 2)], cross) /\
    In "A.html" (keys ex_AB) /\
    (exists q links, dict_get ex_AB q = Some links /\ In "A.html" links) /\
    update_page ex_AB cross d85
                (mkIter [("A.html", 1 # 2); ("B.html", 1 # 2)] None None) "A.html"
    = Ok st' /\
    exists bl v,
      dict_get cross "A.html" = Some bl /\
      (forall q, In q bl <->
                 exists links, dict_get ex_AB q = Some links /\ In "A.html" links) /\
      dict_get (iterative_probablity st') "A.html" = Some v /\
      v == (1 - d85) / len ex_AB
           + d85 * Qsum (map (fun q =>
                                rank_of (iterative_probablity
                                           (mkIter [("A.html", 1 # 2); ("B.html", 1 # 2)]
                                                   None None)) q
                                / len (outlinks ex_AB q)) bl) /\
      forall q, q <> "A.html" ->
                dict_get (iterative_probablity st') q
                = dict_get (iterative_probablity
                              (mkIter [("A.html", 1 # 2); ("B.html", 1 # 2)] None None)) q.
Proof.
  do 2 eexists. split; [reflexivity|]. split; [simpl; tauto|].
  split; [exists "B.html", ["A.html"]; split; [reflexivity | now left]|].
  split; [reflexivity|].
  eapply (update_page_assigns_backlink_sum ex_AB d85
            [("A.html", 1 # 2); ("B.html", 1 # 2)] _
            (mkIter [("A.html", 1 # 2); ("B.html", 1 # 2)] None None) _ "A.html");
    [reflexivity | simpl; tauto
     | exists "B.html", ["A.html"]; split; [reflexivity | now left]
     | reflexivity].
Defined.
